(** * motomap: motorcycle journeys from a location-history export

    A shallow embedding of [motomap.py] (function [main]) and the
    properties of its three stages: the journey extractor, the ping
    correlator and the assembler.

    Conventions of the embedding.
    - A naive [datetime] is the number of microseconds since
      1970-01-01T00:00:00 (Python's datetime has microsecond resolution),
      an integer of [Z].
    - An aware datetime carries its wall-clock reading and its UTC offset.
    - A JSON object of the export is a record whose fields are [option]s:
      [None] is an absent key.  Subscripting an absent key raises
      [KeyError]; the test [k in d] is [contains].  The values have the
      types of the export (strings for timestamps, integers for the E7
      coordinates, the accuracy and the device tag).
    - Code that can raise returns a [result]; a raised exception aborts
      [main], so nothing of a partially updated state is observable.
    - The library functions [datetime.fromisoformat], [datetime.strptime],
      [pytz.timezone] and [datetime.isoformat] are parameters of the
      development ([None] from a parser is [ValueError]).
      [fromisoformat] yields a naive datetime or, for a string with a
      UTC offset, an aware one; an order comparison of an aware datetime
      with the naive dates of the range raises [TypeError].
    - Reading the input files and writing the output file are outside
      the embedding: [main] takes the loaded documents and returns the
      journeys and features it built. *)

From Stdlib Require Import ZArith QArith Lia String Ascii List.
From Stdlib Require Import Sorting.Sorted Sorting.Permutation.
From stdpp Require Import base list option strings sorting pretty.

Local Open Scope string_scope.
Local Open Scope Z_scope.
Local Open Scope list_scope.

(** ** Exceptions *)

Inductive exn : Type :=
  | KeyError (key : string)
  | ValueError (msg : string)
  | TypeError.

Inductive result (A : Type) : Type :=
  | Ok (a : A)
  | Raise (e : exn).
Arguments Ok {A} a.
Arguments Raise {A} e.

#[global] Instance result_ret : MRet result := λ A a, Ok a.
#[global] Instance result_bind : MBind result := λ A B f m,
  match m with
  | Ok a => f a
  | Raise e => Raise e
  end.
#[global] Instance result_fmap : FMap result := λ A B f m,
  match m with
  | Ok a => Ok (f a)
  | Raise e => Raise e
  end.

(** [d[key]] on a JSON object: the value, or [KeyError]. *)
Definition getitem {A} (key : string) (field : option A) : result A :=
  match field with
  | Some v => Ok v
  | None => Raise (KeyError key)
  end.

(** [key in d]. *)
Definition contains {A} (field : option A) : bool :=
  match field with
  | Some _ => true
  | None => false
  end.

(** A library parser that raises [ValueError] on a string it rejects. *)
Definition parse_with {A} (parse : string → option A) (s : string)
  : result A :=
  match parse s with
  | Some t => Ok t
  | None => Raise (ValueError s)
  end.

(** A [for] loop whose body updates one variable and may raise. *)
Fixpoint for_each {A S} (body : S → A → result S) (l : list A) (s : S)
  : result S :=
  match l with
  | [] => Ok s
  | x :: l' => s' ← body s x; for_each body l' s'
  end.

(** ** Strings *)

(** [s[:-1]]: the string without its last character. *)
Fixpoint drop_last (s : string) : string :=
  match s with
  | EmptyString => EmptyString
  | String c s' =>
      match s' with
      | EmptyString => EmptyString
      | String _ _ => String c (drop_last s')
      end
  end.

(** ** Date and time *)

Definition datetime := Z.

(** [timedelta(minutes=m)] in microseconds. *)
Definition timedelta_minutes (m : Z) : Z := m * 60000000.

Record aware_datetime := mk_aware {
  wall : Z;        (* the year .. microsecond fields, as a naive reading *)
  utcoffset : Z    (* the offset of its tzinfo, microseconds east of UTC *)
}.

(** A pytz zone: the UTC offset in force at every UTC instant.  A
    datetime converted to the zone carries the tzinfo object of the
    offset in force; pytz shares these objects, so datetimes of one zone
    with different offsets have different tzinfo objects.  Two datetimes
    with equal offsets compare the same way through UTC as through their
    wall-clock readings, whether or not they share the object, so the
    offset stands for the object in [aware_lt]. *)
Definition tzinfo := Z → Z.

Definition utc_instant (a : aware_datetime) : Z := wall a - utcoffset a.

(** [pytz.utc.localize(t)] *)
Definition localize_utc (t : datetime) : aware_datetime :=
  {| wall := t; utcoffset := 0 |}.

(** [a.astimezone(tz)] *)
Definition astimezone (tz : tzinfo) (a : aware_datetime) : aware_datetime :=
  let u := utc_instant a in
  {| wall := u + tz u; utcoffset := tz u |}.

(** [a < b] on aware datetimes: with the same tzinfo the wall-clock
    readings are compared, otherwise the UTC instants. *)
Definition aware_lt (a b : aware_datetime) : bool :=
  if utcoffset a =? utcoffset b then wall a <? wall b
  else utc_instant a <? utc_instant b.

(** What [datetime.fromisoformat] returns: a naive datetime for a string
    without UTC offset, an aware one for a string with an offset. *)
Inductive pydatetime : Type :=
  | Naive (t : datetime)
  | Aware (a : aware_datetime).

(** The operand of an order comparison ([<], [>]) with a naive datetime:
    an aware operand raises [TypeError]. *)
Definition naive_operand (d : pydatetime) : result datetime :=
  match d with
  | Naive t => Ok t
  | Aware _ => Raise TypeError
  end.

(** ** The data of the export and of the output *)

Record Duration := {
  startTimestamp : option string;
  endTimestamp : option string
}.

Record ActivitySegment := {
  activityType : option string;
  duration : option Duration
}.

Record TimelineEvent := {
  activitySegment : option ActivitySegment
}.

Record SemanticHistory := {
  timelineObjects : option (list TimelineEvent)
}.

Record LocationPing := {
  timestamp : option string;
  latitudeE7 : option Z;
  longitudeE7 : option Z;
  accuracy : option Z;
  deviceTag : option Z
}.

Record LocationHistory := {
  locations : option (list LocationPing)
}.

Record Waypoint := mk_waypoint {
  lat : Q;
  lon : Q;
  time : aware_datetime
}.

Record Journey := mk_journey {
  startTime : datetime;
  endTime : datetime;
  waypoints : list Waypoint
}.

Record Properties := {
  ranking : Z;
  startDate : string;
  endDate : string
}.

Record Geometry := {
  geometry_type : string;
  coordinates : list (list Q)
}.

Record Feature := {
  feature_id : string;
  feature_type : string;
  properties : Properties;
  geometry : Geometry
}.

(** The flags [main] reads. *)
Module FLAGS.
Record t := {
  start_date : string;
  end_date : option string;
  timezone : string;
  accuracy : Z
}.

(** The flags with another value of [--timezone]. *)
Definition with_timezone (flags : t) (name : string) : t :=
  {| start_date := start_date flags;
     end_date := end_date flags;
     timezone := name;
     accuracy := accuracy flags |}.
End FLAGS.

(** [x / 10000000] on an integer of the export.  Python rounds the
    quotient to a double; the exact rational is kept here. *)
Definition e7_to_degrees (x : Z) : Q := Qmake x 10000000.

(** The device whose pings are dropped (the literal of line 102). *)
Definition excluded_deviceTag : Z := 464913864.

(** ** Sorting

    [list.sort(key=...)] is stable and compares keys with [<] only.
    [sort_by lt l] inserts from the right, each element in front of the
    first one that is not smaller than it. *)
Section Sort.
Context {A : Type} (lt : A → A → bool).

Fixpoint insert_by (x : A) (l : list A) : list A :=
  match l with
  | [] => [x]
  | y :: l' => if lt y x then y :: insert_by x l' else x :: y :: l'
  end.

Fixpoint sort_by (l : list A) : list A :=
  match l with
  | [] => []
  | x :: l' => insert_by x (sort_by l')
  end.
End Sort.

(** Comparison of integer keys, and the order a sort by them yields. *)
Definition lt_key {A} (key : A → Z) (a b : A) : bool := key a <? key b.
Definition le_key {A} (key : A → Z) (a b : A) : Prop := key a ≤ key b.

(** ** The program *)

Section Motomap.
Variable fromisoformat : string → option pydatetime.
Variable strptime_date : string → option Z.   (* format "%Y-%m-%d" *)
Variable pytz_timezone : string → tzinfo.
Variable isoformat : aware_datetime → string.

(** [datetime.fromisoformat(s[:-1])] *)
Definition parse_timestamp (s : string) : result pydatetime :=
  parse_with fromisoformat (drop_last s).

(** *** Journey extractor (lines 81-92) *)

(** The body of the loop over timeline events. *)
Definition extract_event (start_date end_date : datetime)
    (journeys : list Journey) (timeline_event : TimelineEvent)
  : result (list Journey) :=
  match activitySegment timeline_event with
  | None => Ok journeys
  | Some activity =>
      ty ← getitem "activityType" (activityType activity);
      if String.eqb ty "MOTORCYCLING" then
        d ← getitem "duration" (duration activity);
        s ← getitem "startTimestamp" (startTimestamp d);
        start ← parse_timestamp s;
        d' ← getitem "duration" (duration activity);
        e ← getitem "endTimestamp" (endTimestamp d');
        end_ ← parse_timestamp e;
        (* start < start_date or end > end_date *)
        start ← naive_operand start;
        if start <? start_date then Ok journeys
        else
          end_ ← naive_operand end_;
          if end_ >? end_date then Ok journeys
          else Ok (journeys ++ [mk_journey start end_ []])
      else Ok journeys
  end.

Definition extract_history (start_date end_date : datetime)
    (journeys : list Journey) (semantic_history : SemanticHistory)
  : result (list Journey) :=
  events ← getitem "timelineObjects" (timelineObjects semantic_history);
  for_each (extract_event start_date end_date) events journeys.

Definition extract_journeys (start_date end_date : datetime)
    (semantic_histories : list SemanticHistory) : result (list Journey) :=
  for_each (extract_history start_date end_date) semantic_histories [].

(** *** Ping correlator (lines 99-114) *)

(** The condition of lines 101-104: the ping is skipped. *)
Definition skipped (flags : FLAGS.t) (start_date end_date : datetime)
    (timestamp : datetime) (location : LocationPing) : bool :=
  (timestamp <? start_date) || (timestamp >? end_date) ||
  match deviceTag location with
  | Some tag => tag =? excluded_deviceTag
  | None => false
  end ||
  negb (contains (latitudeE7 location)) ||
  negb (contains (longitudeE7 location)) ||
  match accuracy location with
  | None => true
  | Some a => a >? FLAGS.accuracy flags
  end.

(** The condition of lines 107-108. *)
Definition in_window (timestamp : datetime) (journey : Journey) : bool :=
  (timestamp >? startTime journey + timedelta_minutes (-5)) &&
  (timestamp <? endTime journey + timedelta_minutes 5).

Definition append_waypoint (journey : Journey) (latlon : Waypoint)
  : Journey :=
  {| startTime := startTime journey;
     endTime := endTime journey;
     waypoints := waypoints journey ++ [latlon] |}.

(** The body of the loop over journeys (lines 107-114). *)
Definition correlate_journey (new_timezone : tzinfo)
    (timestamp : datetime) (location : LocationPing) (journey : Journey)
  : result Journey :=
  if in_window timestamp journey then
    let zoned_time := astimezone new_timezone (localize_utc timestamp) in
    la ← getitem "latitudeE7" (latitudeE7 location);
    lo ← getitem "longitudeE7" (longitudeE7 location);
    Ok (append_waypoint journey
          {| lat := e7_to_degrees la; lon := e7_to_degrees lo;
             time := zoned_time |})
  else Ok journey.

(** The body of the loop over locations (lines 100-114). *)
Definition correlate_location (flags : FLAGS.t)
    (start_date end_date : datetime) (new_timezone : tzinfo)
    (journeys : list Journey) (location : LocationPing)
  : result (list Journey) :=
  ts ← getitem "timestamp" (timestamp location);
  timestamp ← parse_timestamp ts;
  (* timestamp < start_date, the first test of line 101 *)
  timestamp ← naive_operand timestamp;
  if skipped flags start_date end_date timestamp location then Ok journeys
  else mapM (correlate_journey new_timezone timestamp location) journeys.

Definition correlate (flags : FLAGS.t) (start_date end_date : datetime)
    (new_timezone : tzinfo) (locs : list LocationPing)
    (journeys : list Journey) : result (list Journey) :=
  for_each (correlate_location flags start_date end_date new_timezone)
    locs journeys.

(** *** Assembler (lines 117-142) *)

Definition sort_journeys : list Journey → list Journey :=
  sort_by (lt_key startTime).

Definition sort_waypoints : list Waypoint → list Waypoint :=
  sort_by (λ a b, aware_lt (time a) (time b)).

Definition make_feature (new_timezone : tzinfo) (id : Z)
    (journey : Journey) : Feature :=
  {| feature_id := pretty id;
     feature_type := "Feature";
     properties :=
       {| ranking := 0;
          startDate := isoformat
            (astimezone new_timezone (localize_utc (startTime journey)));
          endDate := isoformat
            (astimezone new_timezone (localize_utc (endTime journey))) |};
     geometry :=
       {| geometry_type := "LineString";
          coordinates :=
            (λ waypoint, [lon waypoint; lat waypoint])
              <$> waypoints journey |} |}.

(** [journey["waypoints"].sort(key=lambda item: item["time"])] *)
Definition sort_waypoints_of (journey : Journey) : Journey :=
  {| startTime := startTime journey;
     endTime := endTime journey;
     waypoints := sort_waypoints (waypoints journey) |}.

(** The loop of lines 122-142: every journey has its waypoints sorted
    in place and yields one feature; [id] counts up. *)
Fixpoint build_features (new_timezone : tzinfo) (id : Z)
    (journeys : list Journey) : list Journey * list Feature :=
  match journeys with
  | [] => ([], [])
  | journey :: rest =>
      let journey' := sort_waypoints_of journey in
      let feature := make_feature new_timezone id journey' in
      let '(journeys', features) :=
        build_features new_timezone (id + 1) rest in
      (journey' :: journeys', feature :: features)
  end.

Definition assemble (new_timezone : tzinfo) (journeys : list Journey)
  : list Journey * list Feature :=
  build_features new_timezone 1 (sort_journeys journeys).

(** *** [main]

    [utcnow] is the reading of the clock at line 53.  The result is the
    final value of the variables [journeys] and [features]; the GeoJSON
    object written to the output file wraps [features]. *)
Definition main (flags : FLAGS.t) (utcnow : datetime)
    (location_history : LocationHistory)
    (semantic_histories : list SemanticHistory)
  : result (list Journey * list Feature) :=
  start_date ← parse_with strptime_date (FLAGS.start_date flags);
  end_date ←
    match FLAGS.end_date flags with
    | None => Ok utcnow
    | Some s => parse_with strptime_date s
    end;
  journeys ← extract_journeys start_date end_date semantic_histories;
  let new_timezone := pytz_timezone "US/Pacific" in
  locs ← getitem "locations" (locations location_history);
  journeys ← correlate flags start_date end_date new_timezone locs journeys;
  Ok (assemble new_timezone journeys).

End Motomap.

(** ** The claims' words as predicates

    These follow the wording of the specification; the theorems below
    compare them with the conditions the code evaluates. *)

(** A ping that no per-ping filter discards: in the date range, not of
    the excluded device, latitude, longitude and accuracy present, the
    accuracy within the threshold. *)
Definition passes_filters (flags : FLAGS.t) (start_date end_date : datetime)
    (t : datetime) (location : LocationPing) : Prop :=
  start_date ≤ t ∧ t ≤ end_date ∧
  deviceTag location ≠ Some excluded_deviceTag ∧
  is_Some (latitudeE7 location) ∧
  is_Some (longitudeE7 location) ∧
  ∃ a, accuracy location = Some a ∧ a ≤ FLAGS.accuracy flags.

(** The tolerance window: five minutes are 300 000 000 microseconds. *)
Definition within_tolerance (t : datetime) (journey : Journey) : Prop :=
  startTime journey - 300000000 < t ∧ t < endTime journey + 300000000.

(** The waypoint a ping yields. *)
Definition waypoint_of (new_timezone : tzinfo) (t : datetime)
    (la lo : Z) : Waypoint :=
  {| lat := e7_to_degrees la; lon := e7_to_degrees lo;
     time := astimezone new_timezone (localize_utc t) |}.

(** What the correlator does to one journey for a surviving ping. *)
Definition attach (new_timezone : tzinfo) (t : datetime) (la lo : Z)
    (journey : Journey) : Journey :=
  if in_window t journey
  then append_waypoint journey (waypoint_of new_timezone t la lo)
  else journey.

(** The correlator's frame: same bounds, the old waypoints a prefix. *)
Definition extends (before after : Journey) : Prop :=
  startTime after = startTime before ∧
  endTime after = endTime before ∧
  waypoints before `prefix_of` waypoints after.

(** Some optional field of a location entry is absent. *)
Definition partially_absent (location : LocationPing) : Prop :=
  timestamp location = None ∨ latitudeE7 location = None ∨
  longitudeE7 location = None ∨ accuracy location = None ∨
  deviceTag location = None.

(** The [timestamp] field is present and parses to the naive datetime
    [t]. *)
Definition timestamp_parses (fromisoformat : string → option pydatetime)
    (location : LocationPing) (t : datetime) : Prop :=
  ∃ ts, timestamp location = Some ts ∧
        fromisoformat (drop_last ts) = Some (Naive t).

(** A timeline event that carries a motorcycling segment whose bounds
    parse to the naive datetimes [s] and [e]. *)
Definition motorcycling_segment (fromisoformat : string → option pydatetime)
    (timeline_event : TimelineEvent) (s e : datetime) : Prop :=
  ∃ activity d ss es,
    activitySegment timeline_event = Some activity ∧
    activityType activity = Some "MOTORCYCLING" ∧
    duration activity = Some d ∧
    startTimestamp d = Some ss ∧ endTimestamp d = Some es ∧
    fromisoformat (drop_last ss) = Some (Naive s) ∧
    fromisoformat (drop_last es) = Some (Naive e).

(** The start is not before [start_date], the end not after [end_date]. *)
Definition in_date_range (start_date end_date s e : datetime) : Prop :=
  start_date ≤ s ∧ e ≤ end_date.

(** ** Instances of the library functions, for the examples *)

Module Calendar.

Definition digit (c : ascii) : option Z :=
  let n := Z.of_nat (nat_of_ascii c) in
  if (48 <=? n) && (n <=? 57) then Some (n - 48) else None.

Fixpoint read_digits (n : nat) (acc : Z) (s : string)
  : option (Z * string) :=
  match n with
  | O => Some (acc, s)
  | S n' =>
      match s with
      | String c s' => d ← digit c; read_digits n' (acc * 10 + d) s'
      | EmptyString => None
      end
  end.

Definition expect (c : ascii) (s : string) : option string :=
  match s with
  | String c' s' => if Ascii.eqb c c' then Some s' else None
  | EmptyString => None
  end.

Definition is_leap (y : Z) : bool :=
  ((y mod 4 =? 0) && negb (y mod 100 =? 0)) || (y mod 400 =? 0).

Definition days_in_month (y m : Z) : Z :=
  if m =? 2 then (if is_leap y then 29 else 28)
  else if (m =? 4) || (m =? 6) || (m =? 9) || (m =? 11) then 30 else 31.

(** Days from 1970-01-01 to the proleptic Gregorian date y-m-d. *)
Definition days_from_civil (y m d : Z) : Z :=
  let y' := if m <=? 2 then y - 1 else y in
  let era := y' / 400 in
  let yoe := y' - era * 400 in
  let mp := if m >? 2 then m - 3 else m + 9 in
  let doy := (153 * mp + 2) / 5 + d - 1 in
  let doe := yoe * 365 + yoe / 4 - yoe / 100 + doy in
  era * 146097 + doe - 719468.

Definition civil_from_days (days : Z) : Z * Z * Z :=
  let z := days + 719468 in
  let era := z / 146097 in
  let doe := z - era * 146097 in
  let yoe := (doe - doe / 1460 + doe / 36524 - doe / 146096) / 365 in
  let doy := doe - (365 * yoe + yoe / 4 - yoe / 100) in
  let mp := (5 * doy + 2) / 153 in
  let d := doy - (153 * mp + 2) / 5 + 1 in
  let m := if mp <? 10 then mp + 3 else mp - 9 in
  let y := yoe + era * 400 + (if m <=? 2 then 1 else 0) in
  (y, m, d).

Definition day_us : Z := 86400000000.

Definition read_date (s : string) : option (Z * string) :=
  '(y, s) ← read_digits 4 0 s;
  s ← expect "-" s;
  '(m, s) ← read_digits 2 0 s;
  s ← expect "-" s;
  '(d, s) ← read_digits 2 0 s;
  if (1 <=? y) && (1 <=? m) && (m <=? 12) && (1 <=? d) &&
     (d <=? days_in_month y m)
  then Some (days_from_civil y m d * day_us, s)
  else None.

(** The fraction of a second: nothing, or a point and three or six
    digits; the rest of the string is returned. *)
Definition read_fraction (s : string) : option (Z * string) :=
  match s with
  | EmptyString => Some (0, s)
  | String c s' =>
      if Ascii.eqb c "." then
        match read_digits 6 0 s' with
        | Some (us, rest) => Some (us, rest)
        | None =>
            match read_digits 3 0 s' with
            | Some (ms, rest) => Some (ms * 1000, rest)
            | None => None
            end
        end
      else Some (0, s)
  end.

(** The UTC offset: nothing (a naive datetime), or [+HH:MM] or [-HH:MM],
    in microseconds. *)
Definition read_offset (s : string) : option (option Z) :=
  match s with
  | EmptyString => Some None
  | String c s' =>
      sign ← (if Ascii.eqb c "+" then Some 1
              else if Ascii.eqb c "-" then Some (-1) else None);
      '(hh, s') ← read_digits 2 0 s';
      s' ← expect ":" s';
      '(mm, s') ← read_digits 2 0 s';
      match s' with
      | EmptyString =>
          if (hh <? 24) && (mm <? 60)
          then Some (Some (sign * (hh * 60 + mm) * 60000000))
          else None
      | String _ _ => None
      end
  end.

(** [datetime.fromisoformat] on the layouts [YYYY-MM-DD] and
    [YYYY-MM-DD?HH:MM:SS[.fff[fff]][+HH:MM]] (any separator character);
    every other string is rejected.  With an offset the datetime is
    aware. *)
Definition fromisoformat (s : string) : option pydatetime :=
  '(date, s) ← read_date s;
  match s with
  | EmptyString => Some (Naive date)
  | String _ s =>
      '(hh, s) ← read_digits 2 0 s;
      s ← expect ":" s;
      '(mm, s) ← read_digits 2 0 s;
      s ← expect ":" s;
      '(ss, s) ← read_digits 2 0 s;
      '(us, s) ← read_fraction s;
      offset ← read_offset s;
      if (hh <? 24) && (mm <? 60) && (ss <? 60)
      then
        let t := date + ((hh * 60 + mm) * 60 + ss) * 1000000 + us in
        Some match offset with
             | None => Naive t
             | Some o => Aware {| wall := t; utcoffset := o |}
             end
      else None
  end.

(** The instant of a string without offset. *)
Definition naive_instant (s : string) : option Z :=
  match fromisoformat s with
  | Some (Naive t) => Some t
  | _ => None
  end.

(** [datetime.strptime(s, "%Y-%m-%d")] on zero-padded dates. *)
Definition strptime_date (s : string) : option Z :=
  match read_date s with
  | Some (date, EmptyString) => Some date
  | _ => None
  end.

Definition pad (width : nat) (s : string) : string :=
  Nat.iter (width - String.length s) (String "0") s.

Definition two (n : Z) : string := pad 2 (pretty n).

(** [a.isoformat()] for an offset of whole minutes. *)
Definition isoformat (a : aware_datetime) : string :=
  let t := wall a in
  let '(y, m, d) := civil_from_days (t / day_us) in
  let r := t mod day_us in
  let secs := r / 1000000 in
  let us := r mod 1000000 in
  let off := Z.abs (utcoffset a) / 60000000 in
  pad 4 (pretty y) +:+ "-" +:+ two m +:+ "-" +:+ two d +:+ "T" +:+
  two (secs / 3600) +:+ ":" +:+ two (secs / 60 mod 60) +:+ ":" +:+
  two (secs mod 60) +:+
  (if us =? 0 then "" else "." +:+ pad 6 (pretty us)) +:+
  (if utcoffset a <? 0 then "-" else "+") +:+
  two (off / 60) +:+ ":" +:+ two (off mod 60).

Definition hours (h : Z) : Z := h * 3600000000.

(** US/Pacific around 2022: daylight time from 2022-03-13T10:00Z to
    2022-11-06T09:00Z. *)
Definition us_pacific : tzinfo := λ u,
  if (days_from_civil 2022 3 13 * day_us + hours 10 <=? u) &&
     (u <? days_from_civil 2022 11 6 * day_us + hours 9)
  then hours (-7) else hours (-8).

(** Central European winter time. *)
Definition europe_berlin_winter : tzinfo := λ _, hours 1.

Definition pytz_timezone (name : string) : tzinfo :=
  if String.eqb name "US/Pacific" then us_pacific
  else if String.eqb name "Europe/Berlin" then europe_berlin_winter
  else λ _, 0.

End Calendar.

(** ** Example data *)

Module Examples.
Import Calendar.

Definition flags : FLAGS.t :=
  {| FLAGS.start_date := "2022-01-01";
     FLAGS.end_date := Some "2022-12-31";
     FLAGS.timezone := "US/Pacific";
     FLAGS.accuracy := 50 |}.

Definition ping (ts : string) (acc : Z) : LocationPing :=
  {| timestamp := Some ts;
     latitudeE7 := Some 377749000;
     longitudeE7 := Some (-1224194000);
     accuracy := Some acc;
     deviceTag := None |}.

Definition segment (ty s e : string) : TimelineEvent :=
  {| activitySegment := Some
       {| activityType := Some ty;
          duration := Some {| startTimestamp := Some s;
                              endTimestamp := Some e |} |} |}.

Definition place_visit : TimelineEvent := {| activitySegment := None |}.

Definition at_ (s : string) : datetime :=
  default 0 (naive_instant s).

Definition run := main fromisoformat strptime_date pytz_timezone isoformat.

(** The end-to-end example of the specification: a ride from 10:00 to
    10:30 and pings at 09:56, 10:15, 10:34 and 09:50. *)
Definition ride_history : list SemanticHistory :=
  [ {| timelineObjects := Some
         [ place_visit;
           segment "MOTORCYCLING"
             "2022-06-01T10:00:00Z" "2022-06-01T10:30:00Z";
           segment "WALKING"
             "2022-06-01T11:00:00Z" "2022-06-01T11:30:00Z" ] |} ].

Definition ride_pings : LocationHistory :=
  {| locations := Some
       [ ping "2022-06-01T10:34:00Z" 10;
         ping "2022-06-01T09:56:00Z" 10;
         ping "2022-06-01T09:50:00Z" 10;
         ping "2022-06-01T10:15:00.500Z" 10 ] |}.

(** Dates, zone and journeys for the correlator. *)
Definition sd : datetime := at_ "2022-01-01".
Definition ed : datetime := at_ "2022-12-31".
Definition tz : tzinfo := us_pacific.

Definition ride : Journey :=
  mk_journey (at_ "2022-06-01T10:00:00") (at_ "2022-06-01T10:30:00") [].
Definition second_ride : Journey :=
  mk_journey (at_ "2022-06-01T10:20:00") (at_ "2022-06-01T11:00:00") [].
Definition evening_ride : Journey :=
  mk_journey (at_ "2022-06-01T18:00:00") (at_ "2022-06-01T19:00:00") [].

Definition with_tag (tag : Z) (p : LocationPing) : LocationPing :=
  {| timestamp := timestamp p;
     latitudeE7 := latitudeE7 p;
     longitudeE7 := longitudeE7 p;
     accuracy := accuracy p;
     deviceTag := Some tag |}.

Definition ping_without_timestamp : LocationPing :=
  {| timestamp := None;
     latitudeE7 := Some 377749000;
     longitudeE7 := Some (-1224194000);
     accuracy := Some 10;
     deviceTag := Some 7 |}.

Definition ping_without_accuracy : LocationPing :=
  {| timestamp := Some "2022-06-01T10:25:00Z";
     latitudeE7 := Some 377749000;
     longitudeE7 := Some (-1224194000);
     accuracy := None;
     deviceTag := Some 7 |}.

Definition step :=
  correlate_location fromisoformat flags sd ed tz.

(** A winter ride, for a run with [--timezone=Europe/Berlin]. *)
Definition berlin_flags : FLAGS.t := FLAGS.with_timezone flags "Europe/Berlin".

Definition winter_history : list SemanticHistory :=
  [ {| timelineObjects := Some
         [ segment "MOTORCYCLING"
             "2022-01-15T10:00:00Z" "2022-01-15T10:30:00Z" ] |} ].

Definition winter_pings : LocationHistory :=
  {| locations := Some [ ping "2022-01-15T10:15:00Z" 10 ] |}.

(** Journeys and waypoints out of order, for the assembler. *)
Definition stamp (s : string) : Waypoint :=
  waypoint_of us_pacific (at_ s) 377749000 (-1224194000).

Definition unsorted_journeys : list Journey :=
  [ evening_ride;
    mk_journey (at_ "2022-11-06T08:00:00") (at_ "2022-11-06T10:00:00")
      [ stamp "2022-11-06T09:30:00"; stamp "2022-11-06T08:45:00" ];
    ride ].

End Examples.

(** ** Closed forms and invariants of the stages

    Pure descriptions of what the loops compute and keep; the theorems
    of the last part compare them with the program. *)

(** Line 100 and the first test of line 101: the timestamp of a location
    entry, as the naive datetime the filters compare. *)
Definition decode_timestamp (fromisoformat : string → option pydatetime)
    (location : LocationPing) : result datetime :=
  ts ← getitem "timestamp" (timestamp location);
  d ← parse_timestamp fromisoformat ts;
  naive_operand d.

(** The waypoint a location entry with timestamp [t] adds to a journey,
    if it adds one. *)
Definition ping_waypoint (flags : FLAGS.t) (start_date end_date : datetime)
    (new_timezone : tzinfo) (journey : Journey)
    (ping : datetime * LocationPing) : option Waypoint :=
  if skipped flags start_date end_date ping.1 ping.2 then None
  else if in_window ping.1 journey then
    la ← latitudeE7 ping.2;
    lo ← longitudeE7 ping.2;
    Some (waypoint_of new_timezone ping.1 la lo)
  else None.

(** A journey after the pass over the given locations: the waypoints of
    the locations it matches, in the order of the locations, behind the
    waypoints it had. *)
Definition with_matches (flags : FLAGS.t) (start_date end_date : datetime)
    (new_timezone : tzinfo) (pings : list (datetime * LocationPing))
    (journey : Journey) : Journey :=
  {| startTime := startTime journey;
     endTime := endTime journey;
     waypoints :=
       waypoints journey ++
       omap (ping_waypoint flags start_date end_date new_timezone journey)
         pings |}.

(** The instant of a waypoint lies in the tolerance window of its journey
    and in the date range. *)
Definition waypoint_in_bounds (start_date end_date : datetime)
    (journey : Journey) (w : Waypoint) : Prop :=
  within_tolerance (utc_instant (time w)) journey ∧
  start_date ≤ utc_instant (time w) ∧ utc_instant (time w) ≤ end_date.

Definition well_matched (start_date end_date : datetime)
    (journey : Journey) : Prop :=
  Forall (waypoint_in_bounds start_date end_date journey) (waypoints journey).

(** A journey as the extractor makes it. *)
Definition freshly_extracted (start_date end_date : datetime)
    (journey : Journey) : Prop :=
  waypoints journey = [] ∧
  start_date ≤ startTime journey ∧ endTime journey ≤ end_date.

(** The same position at the same instant, whatever the display zone. *)
Definition same_fix (w1 w2 : Waypoint) : Prop :=
  lat w1 = lat w2 ∧ lon w1 = lon w2 ∧
  utc_instant (time w1) = utc_instant (time w2).

Definition same_journey (j1 j2 : Journey) : Prop :=
  startTime j1 = startTime j2 ∧ endTime j1 = endTime j2 ∧
  Forall2 same_fix (waypoints j1) (waypoints j2).

(** The bounds of a journey. *)
Definition bounds (journey : Journey) : datetime * datetime :=
  (startTime journey, endTime journey).

(** ** Loading the semantic history (lines 44-49 and 62-78)

    The file system is two functions: [listdir] gives the names in a
    directory and [read_json] the document in a file, [None] where
    [os.listdir], [open] or [json.loads] raise.  [int], [str.title] and
    the [year] and [month] of a datetime are parameters as well. *)

Inductive load_exn : Type :=
  | OSError (path : string)          (* os.listdir *)
  | ReadError (path : string)        (* open, read, json.loads *)
  | IntValueError (s : string)       (* int(s) *)
  | IndexError                       (* re.split(...)[1] *)
  | NotInList (s : string).          (* list.index(s), a ValueError *)

Inductive loading (A : Type) : Type :=
  | Loaded (a : A)
  | Failed (e : load_exn).
Arguments Loaded {A} a.
Arguments Failed {A} e.

#[global] Instance loading_ret : MRet loading := λ A a, Loaded a.
#[global] Instance loading_bind : MBind loading := λ A B f m,
  match m with
  | Loaded a => f a
  | Failed e => Failed e
  end.

Definition or_fail {A} (e : load_exn) (o : option A) : loading A :=
  match o with
  | Some a => Loaded a
  | None => Failed e
  end.

Fixpoint for_each_loading {A S} (body : S → A → loading S) (l : list A)
    (s : S) : loading S :=
  match l with
  | [] => Loaded s
  | x :: l' => s' ← body s x; for_each_loading body l' s'
  end.

(** [s.endswith("/")] *)
Fixpoint endswith_slash (s : string) : bool :=
  match s with
  | EmptyString => false
  | String c s' =>
      match s' with
      | EmptyString => Ascii.eqb c "/"
      | String _ _ => endswith_slash s'
      end
  end.

Definition char_between (lo hi c : ascii) : bool :=
  (nat_of_ascii lo <=? nat_of_ascii c)%nat &&
  (nat_of_ascii c <=? nat_of_ascii hi)%nat.

(** The pattern [20[0-2][0-9]] at the start of [s]. *)
Definition year_pattern_here (s : string) : bool :=
  match s with
  | String a (String b (String c (String d _))) =>
      Ascii.eqb a "2" && Ascii.eqb b "0" &&
      char_between "0" "2" c && char_between "0" "9" d
  | _ => false
  end.

(** [re.search("20[0-2][0-9]", s) is not None] *)
Fixpoint re_search_year (s : string) : bool :=
  year_pattern_here s ||
  match s with
  | EmptyString => false
  | String _ s' => re_search_year s'
  end.

Definition is_separator (c : ascii) : bool :=
  Ascii.eqb c "_" || Ascii.eqb c ".".

(** [re.split(r"_|\.", s)] *)
Fixpoint re_split (s : string) : list string :=
  match s with
  | EmptyString => [EmptyString]
  | String c s' =>
      if is_separator c then EmptyString :: re_split s'
      else
        match re_split s' with
        | piece :: pieces => String c piece :: pieces
        | [] => [String c EmptyString]
        end
  end.

(** [list(calendar.month_name)] *)
Definition month_name : list string :=
  [ ""; "January"; "February"; "March"; "April"; "May"; "June"; "July";
    "August"; "September"; "October"; "November"; "December" ].

(** [l.index(x)] *)
Fixpoint index_of (x : string) (l : list string) : option nat :=
  match l with
  | [] => None
  | y :: l' => if String.eqb y x then Some 0%nat else S <$> index_of x l'
  end.

(** Lines 45-49. *)
Definition format_input_directory (flag : string) : string :=
  if endswith_slash flag then flag +:+ "/" else flag.

Section Loader.
Variable listdir : string → option (list string).
Variable read_json : string → option SemanticHistory.
Variable py_int : string → option Z.
Variable title : string → string.
Variables year month : datetime → Z.
Variables start_date end_date : datetime.

(** Line 73. *)
Definition month_of_file (json_path : string) : loading Z :=
  piece ← or_fail IndexError (re_split json_path !! 1%nat);
  i ← or_fail (NotInList (title piece)) (index_of (title piece) month_name);
  Loaded (Z.of_nat i).

(** The body of the loop over the files of a year (lines 73-78). *)
Definition load_file (semantic_directory year_folder : string)
    (semantic_histories : list SemanticHistory) (json_path : string)
  : loading (list SemanticHistory) :=
  m ← month_of_file json_path;
  y ← or_fail (IntValueError year_folder) (py_int year_folder);
  if ((y =? year start_date) && (m <? month start_date)) ||
     ((y =? year end_date) && (m >? month end_date))
  then Loaded semantic_histories
  else
    doc ← (let path := semantic_directory +:+ year_folder +:+ "/" +:+ json_path
           in or_fail (ReadError path) (read_json path));
    Loaded (semantic_histories ++ [doc]).

(** The body of the loop over the year folders (lines 67-78). *)
Definition load_year (semantic_directory : string)
    (semantic_histories : list SemanticHistory) (year_folder : string)
  : loading (list SemanticHistory) :=
  if negb (re_search_year year_folder) then Loaded semantic_histories
  else
    y ← or_fail (IntValueError year_folder) (py_int year_folder);
    if (y <? year start_date) || (y >? year end_date)
    then Loaded semantic_histories
    else
      let monthly_path := semantic_directory +:+ year_folder in
      monthly_json_list ← or_fail (OSError monthly_path) (listdir monthly_path);
      for_each_loading (load_file semantic_directory year_folder)
        monthly_json_list semantic_histories.

(** Lines 45-49 and 62-78. *)
Definition load_semantic_histories (input_directory_flag : string)
  : loading (list SemanticHistory) :=
  let input_directory := format_input_directory input_directory_flag in
  let semantic_directory := input_directory +:+ "Semantic Location History/" in
  semantic_years_list ←
    or_fail (OSError semantic_directory) (listdir semantic_directory);
  for_each_loading (load_year semantic_directory) semantic_years_list [].

End Loader.

(** The month [(y, m)] lies between the month of the start date and the
    month of the end date, both included. *)
Definition in_month_range (sy sm ey em y m : Z) : Prop :=
  (sy < y ∨ (y = sy ∧ sm ≤ m)) ∧ (y < ey ∨ (y = ey ∧ m ≤ em)).

#[global] Instance in_month_range_dec sy sm ey em y m :
  Decision (in_month_range sy sm ey em y m).
Proof. unfold in_month_range. apply _. Defined.

(** No character of [s] is a separator of the file names. *)
Fixpoint separator_free (s : string) : bool :=
  match s with
  | EmptyString => true
  | String c s' => negb (is_separator c) && separator_free s'
  end.

(** ** Instances and files for the loader examples *)

Module Files.
Import Calendar.

(** [int(s)] on strings of decimal digits. *)
Definition py_int (s : string) : option Z :=
  match s with
  | EmptyString => None
  | String _ _ =>
      match read_digits (String.length s) 0 s with
      | Some (n, EmptyString) => Some n
      | _ => None
      end
  end.

Definition is_upper (c : ascii) : bool := char_between "A" "Z" c.
Definition is_lower (c : ascii) : bool := char_between "a" "z" c.
Definition to_upper (c : ascii) : ascii :=
  if is_lower c then ascii_of_nat (nat_of_ascii c - 32) else c.
Definition to_lower (c : ascii) : ascii :=
  if is_upper c then ascii_of_nat (nat_of_ascii c + 32) else c.

Fixpoint title_from (previous_is_cased : bool) (s : string) : string :=
  match s with
  | EmptyString => EmptyString
  | String c s' =>
      String (if previous_is_cased then to_lower c else to_upper c)
        (title_from (is_upper c || is_lower c) s')
  end.

(** [s.title()] on ASCII strings. *)
Definition title (s : string) : string := title_from false s.

Definition year (t : datetime) : Z := (civil_from_days (t / day_us)).1.1.
Definition month (t : datetime) : Z := (civil_from_days (t / day_us)).1.2.

Definition document (s e : string) : SemanticHistory :=
  {| timelineObjects := Some [ Examples.segment "MOTORCYCLING" s e ] |}.

Definition march : SemanticHistory :=
  document "2022-03-05T10:00:00Z" "2022-03-05T10:30:00Z".
Definition june : SemanticHistory :=
  document "2022-06-01T10:00:00Z" "2022-06-01T10:30:00Z".

Definition listdir (path : string) : option (list string) :=
  if String.eqb path "takeout//Semantic Location History/"
  then Some ["2021"; "2022"; "archive_browser.html"]
  else if String.eqb path "takeout//Semantic Location History/2021"
  then Some ["2021_DECEMBER.json"]
  else if String.eqb path "takeout//Semantic Location History/2022"
  then Some ["2022_JANUARY.json"; "2022_MARCH.json"; "2022_JUNE.json";
             "2022_SEPTEMBER.json"]
  else None.

Definition read_json (path : string) : option SemanticHistory :=
  if String.eqb path
       "takeout//Semantic Location History/2022/2022_MARCH.json"
  then Some march
  else if String.eqb path
       "takeout//Semantic Location History/2022/2022_JUNE.json"
  then Some june
  else None.

(** The range from February to August 2022. *)
Definition from_ : datetime := Examples.at_ "2022-02-01".
Definition until : datetime := Examples.at_ "2022-08-31".

Definition load :=
  load_semantic_histories listdir read_json py_int title year month
    from_ until.

Definition month_in (f : string) : Z :=
  match month_of_file title f with
  | Loaded m => m
  | Failed _ => 0
  end.

Definition document_in (f : string) : SemanticHistory :=
  default {| timelineObjects := None |}
    (read_json ("takeout//Semantic Location History/2022/" +:+ f)).

End Files.

(** ** More example data *)

Module MoreExamples.
Import Calendar Examples.

Definition or_nothing {A B} (r : result (list A * list B))
  : list A * list B :=
  match r with
  | Ok out => out
  | Raise _ => ([], [])
  end.

(** The output of the end-to-end example. *)
Definition ride_output : list Journey * list Feature :=
  or_nothing (run flags 0 ride_pings ride_history).

Definition some_pings : list LocationPing :=
  [ ping "2022-06-01T10:25:00Z" 10; ping "2022-06-01T09:00:00Z" 10;
    ping "2022-06-01T10:05:00Z" 90; ping "2022-06-01T10:02:00Z" 5 ].

(** The two overlapping rides after the pass over [some_pings]. *)
Definition matched_rides : list Journey :=
  match correlate fromisoformat flags sd ed tz some_pings
          [ride; second_ride] with
  | Ok journeys => journeys
  | Raise _ => []
  end.

(** Timestamps with a UTC offset in front of the zone marker:
    [fromisoformat] makes aware datetimes of them. *)
Definition ping_with_offset : LocationPing :=
  {| timestamp := Some "2022-06-01T10:25:00+00:00Z";
     latitudeE7 := Some 377749000;
     longitudeE7 := Some (-1224194000);
     accuracy := None;
     deviceTag := Some 7 |}.

Definition ride_with_offset_start : TimelineEvent :=
  segment "MOTORCYCLING" "2022-06-01T10:00:00+00:00Z" "2022-06-01T10:30:00Z".

Definition old_ride_with_offset_end : TimelineEvent :=
  segment "MOTORCYCLING" "2021-06-01T10:00:00Z" "2021-06-01T10:30:00+00:00Z".

Definition ride_with_offset_end : TimelineEvent :=
  segment "MOTORCYCLING" "2022-06-01T10:00:00Z" "2022-06-01T10:30:00+00:00Z".

End MoreExamples.

(** * Properties *)

(** ** Loops and the exception monad *)

Lemma bind_Ok {A B} (f : A → result B) (a : A) : (Ok a ≫= f) = f a.
Proof. reflexivity. Qed.

Lemma bind_Raise {A B} (f : A → result B) (e : exn) :
  (Raise e ≫= f) = Raise e.
Proof. reflexivity. Qed.

Lemma bind_Ok_inv {A B} (f : A → result B) (m : result A) (b : B) :
  (m ≫= f) = Ok b → ∃ a, m = Ok a ∧ f a = Ok b.
Proof. destruct m as [a|e]; [by exists a | done]. Qed.

Lemma getitem_Some {A} (key : string) (v : A) : getitem key (Some v) = Ok v.
Proof. reflexivity. Qed.

Lemma getitem_Ok {A} (key : string) (o : option A) (v : A) :
  getitem key o = Ok v ↔ o = Some v.
Proof. destruct o; simpl; split; congruence. Qed.

Lemma parse_with_Ok {A} (parse : string → option A) (s : string) (t : A) :
  parse_with parse s = Ok t ↔ parse s = Some t.
Proof. unfold parse_with. destruct (parse s); split; congruence. Qed.

Section Loops.
Context {A S : Type} (body : S → A → result S).

Lemma for_each_app (l1 l2 : list A) (s : S) :
  for_each body (l1 ++ l2) s =
  (s' ← for_each body l1 s; for_each body l2 s').
Proof.
  revert s. induction l1 as [|x l1 IH]; intros s; simpl; [done|].
  destruct (body s x) as [s1|e]; simpl; [apply IH | done].
Qed.

(** An iteration that leaves the state alone can be taken out. *)
Lemma for_each_skip (l1 l2 : list A) (x : A) (s : S) :
  (∀ s0, body s0 x = Ok s0) →
  for_each body (l1 ++ x :: l2) s = for_each body (l1 ++ l2) s.
Proof.
  intros Hx. rewrite !for_each_app.
  destruct (for_each body l1 s) as [s1|e]; simpl; [|done].
  by rewrite Hx.
Qed.

(** A preorder kept by every iteration is kept by the loop. *)
Lemma for_each_preserves (R : S → S → Prop) `{!PreOrder R}
    (l : list A) (s s' : S) :
  (∀ s0 x s1, body s0 x = Ok s1 → R s0 s1) →
  for_each body l s = Ok s' → R s s'.
Proof.
  intros Hbody. revert s. induction l as [|x l IH]; intros s; simpl.
  - intros [= <-]. reflexivity.
  - destruct (body s x) as [s1|e] eqn:Hx; simpl; [|done].
    intros Hl. transitivity s1; eauto.
Qed.

(** The loop ends normally when no iteration can raise. *)
Lemma for_each_total (l : list A) (s : S) :
  Forall (λ x, ∀ s0, ∃ s1, body s0 x = Ok s1) l →
  ∃ s', for_each body l s = Ok s'.
Proof.
  intros Hl. revert s. induction Hl as [|x l Hx _ IH]; intros s; simpl.
  - by eexists.
  - destruct (Hx s) as [s1 ->]. simpl. apply IH.
Qed.
End Loops.

Lemma mapM_Ok_fmap {A B} (f : A → result B) (g : A → B) (l : list A) :
  Forall (λ x, f x = Ok (g x)) l → mapM f l = Ok (g <$> l).
Proof.
  induction 1 as [|x l Hx _ IH]; simpl; [done|].
  by rewrite Hx, IH.
Qed.

(** ** Sorting *)

Section SortFacts.
Context {A : Type}.

Lemma insert_by_Permutation (lt : A → A → bool) (x : A) (l : list A) :
  insert_by lt x l ≡ₚ x :: l.
Proof.
  induction l as [|y l IH]; simpl; [done|].
  destruct (lt y x); [|done].
  rewrite IH. apply Permutation_swap.
Qed.

Lemma sort_by_Permutation (lt : A → A → bool) (l : list A) :
  sort_by lt l ≡ₚ l.
Proof.
  induction l as [|x l IH]; simpl; [done|].
  by rewrite insert_by_Permutation, IH.
Qed.

Lemma length_sort_by (lt : A → A → bool) (l : list A) :
  length (sort_by lt l) = length l.
Proof. apply Permutation_length, sort_by_Permutation. Qed.

Lemma sort_by_ext (lt1 lt2 : A → A → bool) (l : list A) :
  (∀ a b, lt1 a b = lt2 a b) → sort_by lt1 l = sort_by lt2 l.
Proof.
  intros Hext. induction l as [|x l IH]; simpl; [done|].
  rewrite IH. generalize (sort_by lt2 l). intros k.
  induction k as [|y k IHk]; simpl; [done|].
  by rewrite Hext, IHk.
Qed.

Context (key : A → Z).

Lemma insert_by_sorted (x : A) (l : list A) :
  StronglySorted (le_key key) l → StronglySorted (le_key key) (insert_by (lt_key key) x l).
Proof.
  induction 1 as [|y l Hl IH Hy]; simpl.
  - repeat constructor.
  - unfold lt_key at 1. destruct (Z.ltb_spec (key y) (key x)) as [Hlt|Hge].
    + constructor; [done|].
      rewrite insert_by_Permutation. constructor; [unfold le_key; lia|done].
    + constructor; [by constructor|].
      constructor; [done|].
      eapply Forall_impl; [exact Hy|]. unfold le_key. intros z ?. lia.
Qed.

Lemma sort_by_sorted (l : list A) : StronglySorted (le_key key) (sort_by (lt_key key) l).
Proof.
  induction l as [|x l IH]; simpl; [constructor|].
  by apply insert_by_sorted.
Qed.

(** Stability: elements of one key keep their relative order. *)
Lemma insert_by_filter (k : Z) (x : A) (l : list A) :
  filter (λ a, key a = k) (insert_by (lt_key key) x l) =
  filter (λ a, key a = k) (x :: l).
Proof.
  induction l as [|y l IH]; simpl; [done|].
  unfold lt_key at 1. destruct (Z.ltb_spec (key y) (key x)) as [Hlt|Hge];
    [|done].
  rewrite (filter_cons _ y), IH, !(filter_cons _ x), (filter_cons _ y).
  repeat case_decide; try done. lia.
Qed.

Lemma sort_by_stable (k : Z) (l : list A) :
  filter (λ a, key a = k) (sort_by (lt_key key) l) = filter (λ a, key a = k) l.
Proof.
  induction l as [|x l IH]; simpl; [done|].
  by rewrite insert_by_filter, !filter_cons, IH.
Qed.
End SortFacts.

(** ** Aware datetimes *)

(** The order Python uses on aware datetimes is the order of instants. *)
Lemma aware_lt_utc (a b : aware_datetime) :
  aware_lt a b = (utc_instant a <? utc_instant b).
Proof.
  unfold aware_lt, utc_instant.
  destruct (Z.eqb_spec (utcoffset a) (utcoffset b)) as [->|]; [|done].
  destruct (Z.ltb_spec (wall a) (wall b)),
    (Z.ltb_spec (wall a - utcoffset b) (wall b - utcoffset b)); done || lia.
Qed.

(** Conversion to a zone keeps the instant. *)
Lemma utc_instant_astimezone (tz : tzinfo) (a : aware_datetime) :
  utc_instant (astimezone tz a) = utc_instant a.
Proof. unfold astimezone, utc_instant. simpl. lia. Qed.

Lemma utc_instant_localize (t : datetime) : utc_instant (localize_utc t) = t.
Proof. unfold utc_instant, localize_utc. simpl. lia. Qed.

(** ** Journey extractor *)

Section Extractor.
Variable fromisoformat : string → option pydatetime.
Variables start_date end_date : datetime.

Local Abbreviation extract :=
  (extract_event fromisoformat start_date end_date).
Local Abbreviation moto := (motorcycling_segment fromisoformat).
Local Abbreviation in_range := (in_date_range start_date end_date).

Lemma out_of_range_iff (s e : datetime) :
  (s <? start_date) || (e >? end_date) = false ↔ in_range s e.
Proof.
  unfold in_date_range. rewrite orb_false_iff, Z.gtb_ltb, !Z.ltb_ge. done.
Qed.


Lemma extract_event_inv js ev js' :
  extract js ev = Ok js' →
  js' = js ∨
  ∃ s e, moto ev s e ∧ in_range s e ∧ js' = js ++ [mk_journey s e []].
Proof.
  unfold extract, parse_timestamp, parse_with.
  destruct ev as [[[[ty|] d]|]]; simpl; [| done | intros [= <-]; by left].
  destruct (String.eqb_spec ty "MOTORCYCLING") as [->|];
    [|intros [= <-]; by left].
  destruct d as [[[ss|] [es|]]|]; simpl; try done.
  - destruct (fromisoformat (drop_last ss)) as [start|] eqn:Hs; simpl;
      [|done].
    destruct (fromisoformat (drop_last es)) as [end_|] eqn:He; simpl;
      [|done].
    destruct start as [s|]; simpl; [|done].
    destruct (s <? start_date) eqn:Hlo; [intros [= <-]; by left|].
    destruct end_ as [e|]; simpl; [|done].
    destruct (e >? end_date) eqn:Hhi; intros [= <-]; [by left|right].
    exists s, e. split; [|split; [|done]].
    + by eexists _, _, ss, es.
    + apply out_of_range_iff. by rewrite Hlo, Hhi.
  - by destruct (fromisoformat (drop_last ss)).
Qed.


End Extractor.

(** ** Ping correlator *)

Lemma mapM_Ok_Forall2 {A B} (f : A → result B) (l : list A) (k : list B) :
  mapM f l = Ok k → Forall2 (λ x y, f x = Ok y) l k.
Proof.
  revert k. induction l as [|x l IH]; intros k; simpl.
  - intros [= <-]. constructor.
  - destruct (f x) as [y|e] eqn:Hx; simpl; [|done].
    destruct (mapM f l) as [k'|e]; simpl; [|done].
    intros [= <-]. constructor; auto.
Qed.

#[local] Instance extends_preorder : PreOrder extends.
Proof.
  split.
  - intros j. by repeat split.
  - intros a b c (Hs1 & He1 & Hw1) (Hs2 & He2 & Hw2).
    repeat split; [congruence..|by etrans].
Qed.

#[local] Instance Forall2_extends_preorder : PreOrder (Forall2 extends).
Proof. split; apply _. Qed.

Lemma in_window_iff (t : datetime) (journey : Journey) :
  in_window t journey = true ↔ within_tolerance t journey.
Proof.
  unfold in_window, within_tolerance, timedelta_minutes.
  rewrite andb_true_iff, Z.gtb_ltb, !Z.ltb_lt. lia.
Qed.

Lemma snoc_ne {A} (l : list A) (x : A) : l ++ [x] ≠ l.
Proof.
  intros H. apply (f_equal length) in H. rewrite length_app in H.
  simpl in H. lia.
Qed.

Section Correlator.
Variable fromisoformat : string → option pydatetime.
Variable flags : FLAGS.t.
Variables start_date end_date : datetime.
Variable new_timezone : tzinfo.

Local Abbreviation step :=
  (correlate_location fromisoformat flags start_date end_date new_timezone).
Local Abbreviation pass :=
  (correlate fromisoformat flags start_date end_date new_timezone).
Local Abbreviation skip := (skipped flags start_date end_date).
Local Abbreviation passes := (passes_filters flags start_date end_date).
Local Abbreviation parses := (timestamp_parses fromisoformat).
Local Abbreviation attach_here := (attach new_timezone).

(** The condition the code evaluates is the negation of the filters of
    the specification. *)
Lemma skipped_false_iff (t : datetime) (location : LocationPing) :
  skip t location = false ↔ passes t location.
Proof.
  unfold skipped, passes_filters.
  destruct location as [ts la lo acc tag]; simpl.
  rewrite !orb_false_iff, Z.gtb_ltb, !Z.ltb_ge, !negb_false_iff.
  split.
  - intros (((((? & ?) & Htag) & Hla) & Hlo) & Hacc).
    split; [done|]. split; [done|]. split.
    { destruct tag as [d|]; [|done]. apply Z.eqb_neq in Htag. congruence. }
    destruct la, lo, acc as [a|]; try done.
    repeat split; eauto. exists a. split; [done|].
    rewrite Z.gtb_ltb in Hacc. by apply Z.ltb_ge.
  - intros (? & ? & Htag & [la' ->] & [lo' ->] & (a & -> & Ha)). simpl.
    repeat split; try done.
    + destruct tag as [d|]; [|done]. apply Z.eqb_neq. congruence.
    + rewrite Z.gtb_ltb. by apply Z.ltb_ge.
Qed.

Lemma correlate_location_parsed journeys location t :
  parses location t →
  step journeys location =
  if skip t location then Ok journeys
  else mapM (correlate_journey new_timezone t location) journeys.
Proof.
  intros (ts & Hts & Ht).
  unfold correlate_location, parse_timestamp, parse_with.
  by rewrite Hts; simpl; rewrite Ht.
Qed.

Lemma correlate_journey_present location t la lo journey :
  latitudeE7 location = Some la → longitudeE7 location = Some lo →
  correlate_journey new_timezone t location journey =
  Ok (attach_here t la lo journey).
Proof.
  intros Hla Hlo. unfold correlate_journey, attach, waypoint_of.
  rewrite Hla, Hlo. by destruct (in_window t journey).
Qed.

(** A ping that no filter discards is offered to every journey. *)
Lemma correlate_location_survivor location t :
  parses location t → passes t location →
  ∃ la lo,
    latitudeE7 location = Some la ∧ longitudeE7 location = Some lo ∧
    ∀ journeys,
      step journeys location = Ok (attach_here t la lo <$> journeys).
Proof.
  intros Hp Hf. pose proof Hf as (_ & _ & _ & [la Hla] & [lo Hlo] & _).
  exists la, lo. split; [done|]. split; [done|]. intros journeys.
  rewrite (correlate_location_parsed _ _ _ Hp).
  apply skipped_false_iff in Hf as ->.
  apply mapM_Ok_fmap, Forall_forall. intros j _.
  by apply correlate_journey_present.
Qed.

(** A ping that a filter discards changes nothing, wherever it stands
    in the sequence of locations. *)
Lemma correlate_location_skipped location t :
  parses location t → skip t location = true →
  (∀ journeys, step journeys location = Ok journeys) ∧
  (∀ before after journeys,
     pass (before ++ location :: after) journeys =
     pass (before ++ after) journeys).
Proof.
  intros Hp Hs.
  assert (∀ journeys, step journeys location = Ok journeys)
    as Hstep.
  { intros journeys. by rewrite (correlate_location_parsed _ _ _ Hp), Hs. }
  split; [done|]. intros before after journeys.
  by apply for_each_skip.
Qed.

Lemma correlate_journey_extends t location journey journey' :
  correlate_journey new_timezone t location journey = Ok journey' →
  extends journey journey'.
Proof.
  unfold correlate_journey.
  destruct (in_window t journey); [|intros [= <-]; reflexivity].
  destruct (latitudeE7 location); simpl; [|done].
  destruct (longitudeE7 location); simpl; [|done].
  intros [= <-]. repeat split. simpl. by apply prefix_app_r.
Qed.

Lemma correlate_location_extends journeys location journeys' :
  step journeys location = Ok journeys' →
  Forall2 extends journeys journeys'.
Proof.
  unfold correlate_location, parse_timestamp, parse_with.
  destruct (timestamp location) as [ts|]; simpl; [|done].
  destruct (fromisoformat (drop_last ts)) as [[t|]|]; simpl; [|done..].
  destruct (skipped _ _ _ _ _); [intros [= <-]; reflexivity|].
  intros Hm. apply mapM_Ok_Forall2 in Hm.
  eapply Forall2_impl; [exact Hm|]. intros j j'.
  apply correlate_journey_extends.
Qed.

Lemma correlate_location_total journeys location t :
  parses location t → ∃ journeys',
    step journeys location = Ok journeys'.
Proof.
  intros Hp. destruct (skip t location) eqn:Hs.
  - exists journeys. by apply (correlate_location_skipped location t).
  - apply skipped_false_iff in Hs.
    destruct (correlate_location_survivor _ _ Hp Hs) as (la & lo & _ & _ & H).
    eauto.
Qed.

(** C1: for a ping that passes every per-ping filter and a journey J of
    the list, the correlation step succeeds and J receives the ping's
    waypoint (its coordinates in degrees, its time in the display zone)
    at the end of its waypoints if and only if
    J.startTime - 5 min < timestamp < J.endTime + 5 min, both strict;
    otherwise J's waypoints stay as they were. *)
Theorem ping_appended_iff_within_tolerance
    (journeys : list Journey) (location : LocationPing) (t : datetime)
    (i : nat) (journey : Journey) :
  parses location t →
  passes t location →
  journeys !! i = Some journey →
  ∃ journeys' journey' latlon,
    step journeys location = Ok journeys' ∧
    journeys' !! i = Some journey' ∧
    time latlon = astimezone new_timezone (localize_utc t) ∧
    Some (lat latlon) = e7_to_degrees <$> latitudeE7 location ∧
    Some (lon latlon) = e7_to_degrees <$> longitudeE7 location ∧
    (waypoints journey' = waypoints journey ++ [latlon] ↔
       startTime journey - 5 * 60 * 1000000 < t ∧
       t < endTime journey + 5 * 60 * 1000000) ∧
    (waypoints journey' = waypoints journey ↔
       ¬ (startTime journey - 5 * 60 * 1000000 < t ∧
          t < endTime journey + 5 * 60 * 1000000)).
Proof.
  intros Hp Hf Hi.
  destruct (correlate_location_survivor _ _ Hp Hf)
    as (la & lo & Hla & Hlo & Hstep).
  exists (attach_here t la lo <$> journeys), (attach_here t la lo journey),
    (waypoint_of new_timezone t la lo).
  split; [apply Hstep|]. split; [by rewrite list_lookup_fmap, Hi|].
  split; [done|]. split; [by rewrite Hla|]. split; [by rewrite Hlo|].
  change (5 * 60 * 1000000) with 300000000.
  fold (within_tolerance t journey). rewrite <- in_window_iff.
  unfold attach. destruct (in_window t journey); simpl.
  - split; [done|]. split; [intros H; by apply snoc_ne in H | done].
  - split; [|done]. split; [|done]. intros H. symmetry in H.
    by apply snoc_ne in H.
Qed.


(** C3: a ping whose accuracy equals the threshold is kept when the
    other filters pass (it is offered to every journey); a ping whose
    accuracy is greater than the threshold is skipped, and the pass over
    the locations gives the same journeys with or without it. *)
Theorem accuracy_threshold_inclusive
    (location : LocationPing) (t a : Z) :
  parses location t →
  accuracy location = Some a →
  (a = FLAGS.accuracy flags →
   start_date ≤ t → t ≤ end_date →
   deviceTag location ≠ Some excluded_deviceTag →
   is_Some (latitudeE7 location) → is_Some (longitudeE7 location) →
   skip t location = false ∧
   ∃ la lo,
     latitudeE7 location = Some la ∧ longitudeE7 location = Some lo ∧
     ∀ journeys,
       step journeys location =
       Ok (attach_here t la lo <$> journeys)) ∧
  (a > FLAGS.accuracy flags →
   skip t location = true ∧
   (∀ journeys, step journeys location = Ok journeys) ∧
   (∀ before after journeys,
      pass (before ++ location :: after) journeys =
      pass (before ++ after) journeys)).
Proof.
  intros Hp Hacc. split.
  - intros -> Hs He Htag Hla Hlo.
    assert (passes t location) as Hf.
    { repeat split; try done. exists (FLAGS.accuracy flags). by split. }
    split; [by apply skipped_false_iff|].
    by apply correlate_location_survivor.
  - intros Ha.
    assert (skip t location = true) as Hs.
    { unfold skipped. rewrite Hacc.
      replace (a >? FLAGS.accuracy flags) with true
        by (symmetry; rewrite Z.gtb_ltb; apply Z.ltb_lt; lia).
      apply orb_true_r. }
    split; [done|]. by apply (correlate_location_skipped location t).
Qed.

(** C7: a ping whose deviceTag is present and equal to the excluded
    identifier is never appended to a journey, whatever its accuracy,
    its coordinates and its timestamp: a correlation step that returns
    leaves the journeys unchanged, and with a timestamp that parses to
    a naive datetime the step returns and the pass over the locations
    gives the same journeys with or without the ping. *)
Theorem excluded_device_rejected (location : LocationPing) :
  deviceTag location = Some excluded_deviceTag →
  (∀ journeys journeys',
     step journeys location = Ok journeys' →
     journeys' = journeys) ∧
  (∀ t, parses location t →
     skip t location = true ∧
     (∀ journeys, step journeys location = Ok journeys) ∧
     (∀ before after journeys,
        pass (before ++ location :: after) journeys =
        pass (before ++ after) journeys)).
Proof.
  intros Htag.
  assert (∀ t, skip t location = true) as Hs.
  { intros t. unfold skipped. rewrite Htag, Z.eqb_refl.
    by rewrite orb_true_r. }
  split.
  - intros journeys journeys'.
    unfold correlate_location, parse_timestamp, parse_with.
    destruct (timestamp location) as [ts|]; simpl; [|done].
    destruct (fromisoformat (drop_last ts)) as [[t|]|]; simpl; [|done..].
    fold (skip t location). rewrite Hs. by intros [= <-].
  - intros t Hp. split; [done|].
    by apply (correlate_location_skipped location t).
Qed.

(** C4 (amended): a location entry whose timestamp is present and parses
    to a naive datetime and whose latitudeE7, longitudeE7 or accuracy is
    absent is skipped without an error, and the pass over the locations
    gives the same journeys with or without it.  An absent deviceTag
    does not exclude a ping: without a deviceTag, a ping that passes the
    other filters is not skipped and is offered to every journey. *)
Theorem missing_coordinates_or_accuracy_skipped
    (location : LocationPing) (t : datetime) :
  parses location t →
  (latitudeE7 location = None ∨ longitudeE7 location = None ∨
     accuracy location = None →
   (∀ journeys, step journeys location = Ok journeys) ∧
   (∀ before after journeys,
      pass (before ++ location :: after) journeys =
      pass (before ++ after) journeys)) ∧
  (deviceTag location = None →
   start_date ≤ t → t ≤ end_date →
   is_Some (latitudeE7 location) → is_Some (longitudeE7 location) →
   (∃ a, accuracy location = Some a ∧ a ≤ FLAGS.accuracy flags) →
   skip t location = false ∧
   ∃ la lo,
     latitudeE7 location = Some la ∧ longitudeE7 location = Some lo ∧
     ∀ journeys,
       step journeys location = Ok (attach_here t la lo <$> journeys)).
Proof.
  intros Hp. split.
  - intros Habsent. apply (correlate_location_skipped location t Hp).
    destruct (skip t location) eqn:Hs; [done|].
    apply skipped_false_iff in Hs
      as (_ & _ & _ & [la Hla] & [lo Hlo] & (a & Ha & _)).
    destruct Habsent as [?|[?|?]]; congruence.
  - intros Htag Hs He Hla Hlo Hacc.
    assert (passes t location) as Hf.
    { repeat split; try done. by rewrite Htag. }
    split; [by apply skipped_false_iff|].
    by apply correlate_location_survivor.
Qed.

(** C9: the correlation pass only appends waypoints: whenever it
    returns, the journeys are as many as before and each has the
    startTime and endTime it had, its earlier waypoints a prefix of its
    waypoints; and it returns whenever every location has a timestamp
    that parses to a naive datetime. *)
Theorem correlate_only_appends
    (locs : list LocationPing) (journeys : list Journey) :
  (∀ journeys', pass locs journeys = Ok journeys' →
     length journeys' = length journeys ∧
     startTime <$> journeys' = startTime <$> journeys ∧
     endTime <$> journeys' = endTime <$> journeys ∧
     Forall2 extends journeys journeys') ∧
  (Forall (λ location, ∃ t, parses location t) locs →
   ∃ journeys', pass locs journeys = Ok journeys').
Proof.
  split.
  - intros journeys' Hrun.
    assert (Forall2 extends journeys journeys') as Hext.
    { eapply (for_each_preserves _ (Forall2 extends)); [|exact Hrun].
      intros s0 x s1. apply correlate_location_extends. }
    split; [symmetry; by eapply Forall2_length|].
    split; [|split; [|done]].
    + clear Hrun. induction Hext as [|j j' l l' (Hs & _ & _) _ IH]; [done|].
      by rewrite !fmap_cons, Hs, IH.
    + clear Hrun. induction Hext as [|j j' l l' (_ & He & _) _ IH]; [done|].
      by rewrite !fmap_cons, He, IH.
  - intros Hall. apply for_each_total.
    eapply Forall_impl; [exact Hall|]. intros location [t Hp] s0.
    by apply (correlate_location_total s0 location t).
Qed.

End Correlator.

(** ** Assembler *)

Section Assembler.
Variable isoformat : aware_datetime → string.
Variable new_timezone : tzinfo.

Local Abbreviation build := (build_features isoformat new_timezone).
Local Abbreviation assembled := (assemble isoformat new_timezone).
Local Abbreviation feature_of := (make_feature isoformat new_timezone).

(** Sorting by the aware [time] is sorting by instant. *)
Lemma sort_waypoints_by_instant (l : list Waypoint) :
  sort_waypoints l = sort_by (lt_key (utc_instant ∘ time)) l.
Proof. apply sort_by_ext. intros a b. apply aware_lt_utc. Qed.

Lemma sort_waypoints_sorted (l : list Waypoint) :
  StronglySorted (le_key (utc_instant ∘ time)) (sort_waypoints l).
Proof. rewrite sort_waypoints_by_instant. apply sort_by_sorted. Qed.

Lemma sort_waypoints_Permutation (l : list Waypoint) :
  sort_waypoints l ≡ₚ l.
Proof. apply sort_by_Permutation. Qed.

Lemma build_features_journeys (id : Z) (journeys : list Journey) :
  (build id journeys).1 = sort_waypoints_of <$> journeys.
Proof.
  revert id. induction journeys as [|j l IH]; intros id; simpl; [done|].
  specialize (IH (id + 1)). destruct (build (id + 1) l).
  simpl in *. by rewrite IH.
Qed.

Lemma build_features_features (id : Z) (journeys : list Journey) :
  (build id journeys).2 =
  imap (λ i j, feature_of (id + Z.of_nat i) (sort_waypoints_of j)) journeys.
Proof.
  revert id. induction journeys as [|j l IH]; intros id; simpl; [done|].
  specialize (IH (id + 1)). destruct (build (id + 1) l).
  simpl in *. rewrite IH, Z.add_0_r. f_equal.
  apply imap_ext. intros i x _. unfold compose.
  by replace (id + 1 + Z.of_nat i) with (id + Z.of_nat (S i)) by lia.
Qed.

(** Every journey of the loop faces the feature built from it. *)
Lemma build_features_Forall2 (id : Z) (journeys : list Journey) :
  Forall2 (λ j f, ∃ n, f = feature_of n (sort_waypoints_of j))
    journeys (build id journeys).2.
Proof.
  revert id. induction journeys as [|j l IH]; intros id; simpl.
  - constructor.
  - specialize (IH (id + 1)). destruct (build (id + 1) l).
    simpl in *. constructor; [by eexists | done].
Qed.

(** C5: the journeys the assembler leaves are in non-decreasing order of
    startTime, the waypoints of each are in non-decreasing order of the
    instant of their time, and the features follow them one to one: the
    dates of a feature are those of its journey and its coordinates are
    the [lon, lat] pairs of the journey's waypoints in that order.  The
    journeys left are the journeys given, rearranged: as many, each with
    its startTime and endTime and with its waypoints rearranged. *)
Theorem assembled_journeys_and_waypoints_sorted (journeys : list Journey) :
  StronglySorted (le_key startTime) (assembled journeys).1 ∧
  Forall (λ j, StronglySorted (le_key (utc_instant ∘ time)) (waypoints j))
    (assembled journeys).1 ∧
  Forall2 (λ j f,
      startDate (properties f) =
        isoformat (astimezone new_timezone (localize_utc (startTime j))) ∧
      endDate (properties f) =
        isoformat (astimezone new_timezone (localize_utc (endTime j))) ∧
      coordinates (geometry f) = (λ w, [lon w; lat w]) <$> waypoints j)
    (assembled journeys).1 (assembled journeys).2 ∧
  length (assembled journeys).1 = length journeys ∧
  ∃ rearranged,
    rearranged ≡ₚ journeys ∧
    Forall2 (λ j j',
        startTime j' = startTime j ∧ endTime j' = endTime j ∧
        waypoints j' ≡ₚ waypoints j)
      rearranged (assembled journeys).1.
Proof.
  unfold assemble. rewrite build_features_journeys.
  split; [|split; [|split; [|split]]].
  - pose proof (sort_by_sorted startTime journeys) as Hs.
    fold sort_journeys in Hs.
    induction Hs as [|j l _ IH Hj]; [constructor|].
    rewrite fmap_cons. constructor; [done|].
    apply Forall_fmap. eapply Forall_impl; [exact Hj|]. by intros [].
  - apply Forall_fmap, Forall_forall. intros j _. simpl.
    apply sort_waypoints_sorted.
  - apply Forall2_fmap_l.
    eapply Forall2_impl; [apply build_features_Forall2|].
    by intros j f [n ->].
  - rewrite length_fmap. apply length_sort_by.
  - exists (sort_journeys journeys). split; [apply sort_by_Permutation|].
    apply Forall2_fmap_r, Forall_Forall2_diag, Forall_forall.
    intros j _. simpl. split; [done|]. split; [done|].
    apply sort_waypoints_Permutation.
Qed.

(** C10: the assembler emits exactly one feature per journey, those
    without waypoints included: the features face the journeys in sorted
    order, a rearrangement of the journeys given, and each feature is a
    LineString with one [lon, lat] pair per waypoint of its journey, so
    a journey without waypoints yields an empty coordinate list. *)
Theorem one_linestring_feature_per_journey (journeys : list Journey) :
  length (assembled journeys).2 = length journeys ∧
  sort_journeys journeys ≡ₚ journeys ∧
  Forall2 (λ j f,
      feature_type f = "Feature" ∧
      geometry_type (geometry f) = "LineString" ∧
      length (coordinates (geometry f)) = length (waypoints j) ∧
      coordinates (geometry f) ≡ₚ (λ w, [lon w; lat w]) <$> waypoints j ∧
      Forall (λ pair, length pair = 2%nat) (coordinates (geometry f)) ∧
      (waypoints j = [] → coordinates (geometry f) = []))
    (sort_journeys journeys) (assembled journeys).2.
Proof.
  assert (Forall2 (λ j f, ∃ n, f = feature_of n (sort_waypoints_of j))
            (sort_journeys journeys) (assembled journeys).2) as H
    by apply build_features_Forall2.
  split; [|split].
  - rewrite <- (Forall2_length _ _ _ H). apply length_sort_by.
  - apply sort_by_Permutation.
  - eapply Forall2_impl; [exact H|]. intros j f [n ->]. simpl.
    split; [done|]. split; [done|].
    split; [rewrite length_fmap; apply length_sort_by|].
    split; [by rewrite sort_waypoints_Permutation|].
    split; [apply Forall_fmap, Forall_forall; by intros|].
    by intros ->.
Qed.

End Assembler.

(** ** The whole program *)

Section Main.
Variable fromisoformat : string → option pydatetime.
Variable strptime_date : string → option Z.
Variable pytz_timezone : string → tzinfo.
Variable isoformat : aware_datetime → string.

Local Abbreviation program :=
  (main fromisoformat strptime_date pytz_timezone isoformat).

(** [program] never reads [FLAGS.timezone]: the zone is the literal of
    line 96. *)
Lemma main_ignores_timezone_flag (flags : FLAGS.t) (name : string)
    (utcnow : datetime) (location_history : LocationHistory)
    (semantic_histories : list SemanticHistory) :
  program (FLAGS.with_timezone flags name) utcnow location_history
    semantic_histories =
  program flags utcnow location_history semantic_histories.
Proof. reflexivity. Qed.

(** A run that returns went through the three stages in order. *)
Lemma main_Ok_inv (flags : FLAGS.t) (utcnow : datetime)
    (location_history : LocationHistory)
    (semantic_histories : list SemanticHistory)
    (out : list Journey * list Feature) :
  program flags utcnow location_history semantic_histories = Ok out →
  ∃ start_date end_date extracted locs correlated,
    extract_journeys fromisoformat start_date end_date semantic_histories
      = Ok extracted ∧
    locations location_history = Some locs ∧
    correlate fromisoformat flags start_date end_date
      (pytz_timezone "US/Pacific") locs extracted = Ok correlated ∧
    out = assemble isoformat (pytz_timezone "US/Pacific") correlated.
Proof.
  unfold main.
  intros H.
  apply bind_Ok_inv in H as (sd & _ & H).
  apply bind_Ok_inv in H as (ed & _ & H).
  apply bind_Ok_inv in H as (js & Hx & H).
  apply bind_Ok_inv in H as (locs & Hl & H). apply getitem_Ok in Hl.
  apply bind_Ok_inv in H as (js' & Hc & H).
  injection H as <-. by exists sd, ed, js, locs, js'.
Qed.

End Main.

(** ** The program on the example data *)

Module Checks.
Import Calendar Examples.

(** The end-to-end example of the specification: three of the four pings
    fall into the window of the ride, and the feature has their three
    coordinates in chronological order. *)
Example ride_has_three_coordinates :
  ∃ journey feature,
    run flags 0 ride_pings ride_history = Ok ([journey], [feature]) ∧
    wall ∘ time <$> waypoints journey =
      [ at_ "2022-06-01T02:56:00"; at_ "2022-06-01T03:15:00.500";
        at_ "2022-06-01T03:34:00" ] ∧
    length (coordinates (geometry feature)) = 3%nat ∧
    feature_id feature = "1" ∧
    startDate (properties feature) = "2022-06-01T03:00:00-07:00" ∧
    endDate (properties feature) = "2022-06-01T03:30:00-07:00".
Proof. do 2 eexists. by vm_compute. Qed.

(** Where the clocks go back, the later waypoint has the earlier
    wall-clock reading; the sort follows the instants. *)
Example waypoints_sorted_across_clock_change :
  (λ j, (startTime j, utc_instant ∘ time <$> waypoints j))
    <$> (assemble isoformat us_pacific unsorted_journeys).1 =
  [ (at_ "2022-06-01T10:00:00", []);
    (at_ "2022-06-01T18:00:00", []);
    (at_ "2022-11-06T08:00:00",
      [ at_ "2022-11-06T08:45:00"; at_ "2022-11-06T09:30:00" ]) ] ∧
  wall (time (stamp "2022-11-06T09:30:00")) <
    wall (time (stamp "2022-11-06T08:45:00")).
Proof. by vm_compute. Qed.

(** The window is open at both ends: pings exactly five minutes before
    the start or after the end are not appended, pings one microsecond
    inside are. *)
Example window_bounds_are_strict :
  step [ride] (ping "2022-06-01T09:55:00Z" 10) = Ok [ride] ∧
  step [ride] (ping "2022-06-01T10:35:00Z" 10) = Ok [ride] ∧
  step [ride] (ping "2022-06-01T09:55:00.000001Z" 10) =
    Ok [append_waypoint ride (stamp "2022-06-01T09:55:00.000001")] ∧
  step [ride] (ping "2022-06-01T10:34:59.999999Z" 10) =
    Ok [append_waypoint ride (stamp "2022-06-01T10:34:59.999999")].
Proof. by vm_compute. Qed.

(** C2: with [--timezone=Europe/Berlin] the run is the run of the
    default flags: the waypoint and the dates of the feature are in
    US/Pacific (eight hours behind UTC in January), where the configured
    zone would give 11:00 at +01:00. *)
Theorem timezone_flag_has_no_effect :
  FLAGS.timezone berlin_flags = "Europe/Berlin" ∧
  run berlin_flags 0 winter_pings winter_history =
    run flags 0 winter_pings winter_history ∧
  (∃ journeys features,
     run berlin_flags 0 winter_pings winter_history
       = Ok (journeys, features) ∧
     (λ j, utcoffset ∘ time <$> waypoints j) <$> journeys
       = [[hours (-8)]] ∧
     (λ f, (startDate (properties f), endDate (properties f))) <$> features
       = [("2022-01-15T02:00:00-08:00", "2022-01-15T02:30:00-08:00")]) ∧
  isoformat (astimezone (pytz_timezone "Europe/Berlin")
               (localize_utc (at_ "2022-01-15T10:00:00")))
    = "2022-01-15T11:00:00+01:00".
Proof.
  split; [done|]. split; [done|]. split; [|by vm_compute].
  do 2 eexists. by vm_compute.
Qed.

(** C4, as stated, fails: a ping without a deviceTag is appended like
    any other, a ping without a timestamp raises KeyError, and a ping
    without accuracy whose timestamp carries a UTC offset raises
    TypeError. *)
Lemma absent_field_not_always_skipped :
  partially_absent (ping "2022-06-01T10:25:00Z" 10) ∧
  step [ride] (ping "2022-06-01T10:25:00Z" 10) =
    Ok [append_waypoint ride (stamp "2022-06-01T10:25:00")] ∧
  partially_absent ping_without_timestamp ∧
  step [ride] ping_without_timestamp = Raise (KeyError "timestamp") ∧
  partially_absent MoreExamples.ping_with_offset ∧
  step [ride] MoreExamples.ping_with_offset = Raise TypeError ∧
  ¬ (∀ location journeys,
       partially_absent location → step journeys location = Ok journeys).
Proof.
  split; [by repeat right|]. split; [by vm_compute|].
  split; [by left|]. split; [done|].
  split; [by do 3 right; left|]. split; [by vm_compute|].
  intros H. specialize (H ping_without_timestamp [ride]).
  by discriminate H; [left].
Qed.

End Checks.

(** ** The theorems at concrete inputs *)

Module Witnesses.
Import Calendar Examples.

Lemma ping_parses (ts : string) (acc : Z) (t : datetime) :
  fromisoformat (drop_last ts) = Some (Naive t) →
  timestamp_parses fromisoformat (ping ts acc) t.
Proof. intros H. by exists ts. Defined.

Lemma ping_passes (ts : string) (acc : Z) (t : datetime) :
  sd ≤ t → t ≤ ed → acc ≤ 50 →
  passes_filters flags sd ed t (ping ts acc).
Proof.
  intros Hs He Ha. split; [done|]. split; [done|]. split; [done|].
  split; [by eexists|]. split; [by eexists|]. by exists acc.
Defined.

(** A ping at 10:25 is appended to the ride from 10:00 to 10:30. *)
Lemma ping_appended_iff_within_tolerance_witness :
  ∃ journeys' journey' latlon,
    step [ride; evening_ride] (ping "2022-06-01T10:25:00Z" 10)
      = Ok journeys' ∧
    journeys' !! 0%nat = Some journey' ∧
    time latlon = astimezone tz (localize_utc (at_ "2022-06-01T10:25:00")) ∧
    Some (lat latlon) = Some (e7_to_degrees 377749000) ∧
    Some (lon latlon) = Some (e7_to_degrees (-1224194000)) ∧
    (waypoints journey' = waypoints ride ++ [latlon] ↔
       startTime ride - 5 * 60 * 1000000 < at_ "2022-06-01T10:25:00" ∧
       at_ "2022-06-01T10:25:00" < endTime ride + 5 * 60 * 1000000) ∧
    (waypoints journey' = waypoints ride ↔
       ¬ (startTime ride - 5 * 60 * 1000000 < at_ "2022-06-01T10:25:00" ∧
          at_ "2022-06-01T10:25:00" < endTime ride + 5 * 60 * 1000000)).
Proof.
  apply (ping_appended_iff_within_tolerance fromisoformat flags sd ed tz
           [ride; evening_ride] (ping "2022-06-01T10:25:00Z" 10)
           (at_ "2022-06-01T10:25:00") 0%nat ride).
  - apply ping_parses. reflexivity.
  - apply ping_passes; by vm_compute.
  - reflexivity.
Defined.


(** Accuracy 50 against the threshold 50 is kept, accuracy 51 is not. *)
Lemma accuracy_threshold_inclusive_witness :
  skipped flags sd ed (at_ "2022-06-01T10:25:00")
    (ping "2022-06-01T10:25:00Z" 50) = false ∧
  skipped flags sd ed (at_ "2022-06-01T10:25:00")
    (ping "2022-06-01T10:25:00Z" 51) = true ∧
  ∀ journeys, step journeys (ping "2022-06-01T10:25:00Z" 51) = Ok journeys.
Proof.
  split; [|split].
  - apply (accuracy_threshold_inclusive fromisoformat flags sd ed tz
             (ping "2022-06-01T10:25:00Z" 50) (at_ "2022-06-01T10:25:00") 50).
    + apply ping_parses. reflexivity.
    + reflexivity.
    + reflexivity.
    + by vm_compute.
    + by vm_compute.
    + done.
    + by eexists.
    + by eexists.
  - apply (accuracy_threshold_inclusive fromisoformat flags sd ed tz
             (ping "2022-06-01T10:25:00Z" 51) (at_ "2022-06-01T10:25:00") 51).
    + apply ping_parses. reflexivity.
    + reflexivity.
    + reflexivity.
  - apply (accuracy_threshold_inclusive fromisoformat flags sd ed tz
             (ping "2022-06-01T10:25:00Z" 51) (at_ "2022-06-01T10:25:00") 51).
    + apply ping_parses. reflexivity.
    + reflexivity.
    + reflexivity.
Defined.

(** A ping without accuracy, inside the window of the ride, is skipped;
    a ping without deviceTag is offered to every journey. *)
Lemma missing_coordinates_or_accuracy_skipped_witness :
  step [ride] ping_without_accuracy = Ok [ride] ∧
  correlate fromisoformat flags sd ed tz
    [ping "2022-06-01T10:15:00Z" 10; ping_without_accuracy] [ride] =
  correlate fromisoformat flags sd ed tz
    [ping "2022-06-01T10:15:00Z" 10] [ride] ∧
  skipped flags sd ed (at_ "2022-06-01T10:25:00")
    (ping "2022-06-01T10:25:00Z" 10) = false ∧
  ∃ la lo,
    latitudeE7 (ping "2022-06-01T10:25:00Z" 10) = Some la ∧
    longitudeE7 (ping "2022-06-01T10:25:00Z" 10) = Some lo ∧
    ∀ journeys,
      step journeys (ping "2022-06-01T10:25:00Z" 10) =
      Ok (attach tz (at_ "2022-06-01T10:25:00") la lo <$> journeys).
Proof.
  assert (timestamp_parses fromisoformat ping_without_accuracy
            (at_ "2022-06-01T10:25:00")) as Hp.
  { by exists "2022-06-01T10:25:00Z". }
  assert (latitudeE7 ping_without_accuracy = None ∨
          longitudeE7 ping_without_accuracy = None ∨
          accuracy ping_without_accuracy = None) as Habsent.
  { by repeat right. }
  destruct (missing_coordinates_or_accuracy_skipped fromisoformat flags sd ed
              tz ping_without_accuracy _ Hp) as [Hskipped _].
  destruct (Hskipped Habsent) as [Hstep Hrun].
  split; [apply Hstep|].
  split; [apply (Hrun [ping "2022-06-01T10:15:00Z" 10] [] [ride])|].
  destruct (missing_coordinates_or_accuracy_skipped fromisoformat flags sd ed
              tz (ping "2022-06-01T10:25:00Z" 10) (at_ "2022-06-01T10:25:00"))
    as [_ Hkept].
  { apply ping_parses. reflexivity. }
  apply Hkept.
  - reflexivity.
  - by vm_compute.
  - by vm_compute.
  - by eexists.
  - by eexists.
  - exists 10. split; [reflexivity|]. by vm_compute.
Defined.

(** A ping of the excluded device, accurate and inside the window of the
    ride, is rejected. *)
Lemma excluded_device_rejected_witness :
  step [ride] (with_tag 464913864 (ping "2022-06-01T10:25:00Z" 1)) = Ok [ride].
Proof.
  destruct (excluded_device_rejected fromisoformat flags sd ed tz
              (with_tag 464913864 (ping "2022-06-01T10:25:00Z" 1)) eq_refl)
    as [_ Hparsed].
  destruct (Hparsed (at_ "2022-06-01T10:25:00")) as (_ & Hstep & _).
  { exists "2022-06-01T10:25:00Z". split; reflexivity. }
  apply Hstep.
Defined.

(** Three pings against two rides: both rides are still there, with
    their bounds. *)
Lemma correlate_only_appends_witness :
  ∃ journeys',
    correlate fromisoformat flags sd ed tz
      [ ping "2022-06-01T10:25:00Z" 10; ping "2022-06-01T09:00:00Z" 10;
        ping "2022-06-01T10:05:00Z" 90 ]
      [ride; second_ride] = Ok journeys' ∧
    length journeys' = 2%nat ∧
    startTime <$> journeys' = [startTime ride; startTime second_ride] ∧
    endTime <$> journeys' = [endTime ride; endTime second_ride] ∧
    Forall2 extends [ride; second_ride] journeys'.
Proof.
  destruct (correlate_only_appends fromisoformat flags sd ed tz
              [ ping "2022-06-01T10:25:00Z" 10; ping "2022-06-01T09:00:00Z" 10;
                ping "2022-06-01T10:05:00Z" 90 ]
              [ride; second_ride]) as [Hframe Htotal].
  destruct Htotal as [journeys' Hrun].
  { repeat constructor; eexists; by apply ping_parses. }
  exists journeys'. split; [exact Hrun|]. apply (Hframe _ Hrun).
Defined.


(** The assembler on three journeys out of order. *)
Lemma assembled_journeys_and_waypoints_sorted_witness :
  StronglySorted (le_key startTime)
    (assemble isoformat tz unsorted_journeys).1 ∧
  Forall (λ j, StronglySorted (le_key (utc_instant ∘ time)) (waypoints j))
    (assemble isoformat tz unsorted_journeys).1 ∧
  length (assemble isoformat tz unsorted_journeys).1 = 3%nat ∧
  ∃ rearranged,
    rearranged ≡ₚ unsorted_journeys ∧
    Forall2 (λ j j',
        startTime j' = startTime j ∧ endTime j' = endTime j ∧
        waypoints j' ≡ₚ waypoints j)
      rearranged (assemble isoformat tz unsorted_journeys).1.
Proof.
  destruct (assembled_journeys_and_waypoints_sorted isoformat tz
              unsorted_journeys) as (Hj & Hw & _ & Hlen & Hperm).
  done.
Defined.

Lemma one_linestring_feature_per_journey_witness :
  length (assemble isoformat tz unsorted_journeys).2 = 3%nat ∧
  sort_journeys unsorted_journeys ≡ₚ unsorted_journeys.
Proof.
  destruct (one_linestring_feature_per_journey isoformat tz
              unsorted_journeys) as (Hlen & Hperm & _).
  by split.
Defined.

End Witnesses.

(** * Further properties of the stages *)

Ltac break_hyps :=
  repeat match goal with
    | H : _ ∧ _ |- _ => destruct H
    | H : _ ∨ _ |- _ => destruct H
    | H : ∃ _, _ |- _ => destruct H
    | H : is_Some _ |- _ => destruct H
    end.


(** ** More on loops *)

Lemma mapM_result_cons {A B} (f : A → result B) (x : A) (l : list A) :
  mapM f (x :: l) = (y ← f x; k ← mapM f l; Ok (y :: k)).
Proof. reflexivity. Qed.

Lemma mapM_result_app {A B} (f : A → result B) (l1 l2 : list A) :
  mapM f (l1 ++ l2) = (k1 ← mapM f l1; k2 ← mapM f l2; Ok (k1 ++ k2)).
Proof.
  induction l1 as [|x l1 IH]; simpl.
  - by destruct (mapM f l2).
  - destruct (f x) as [y|e]; simpl; [|done]. rewrite IH.
    destruct (mapM f l1) as [k1|e]; simpl; [|done].
    by destruct (mapM f l2).
Qed.

Lemma mapM_result_length {A B} (f : A → result B) (l : list A) (k : list B) :
  mapM f l = Ok k → length k = length l.
Proof.
  intros H. apply mapM_Ok_Forall2 in H. symmetry. by eapply Forall2_length.
Qed.

(** [mapM] raises the exception of the first element that raises. *)
Lemma mapM_Raise_iff {A B} (f : A → result B) (l : list A) (e : exn) :
  mapM f l = Raise e ↔
  ∃ before x after,
    l = before ++ x :: after ∧
    Forall (λ y, ∃ b, f y = Ok b) before ∧ f x = Raise e.
Proof.
  split.
  - induction l as [|x l IH]; simpl; [done|].
    destruct (f x) as [y|e'] eqn:Hx; simpl.
    + destruct (mapM f l) as [k|e'']; simpl; [done|].
      intros [= ->]. destruct IH as (before & x' & after & -> & Hb & Hx');
        [done|].
      exists (x :: before), x', after. split; [done|].
      split; [constructor; eauto | done].
    + intros [= ->]. by exists [], x, l.
  - intros (before & x & after & -> & Hb & Hx).
    rewrite mapM_result_app.
    assert (∃ k, mapM f before = Ok k) as [k ->].
    { induction Hb as [|y l [b Hy] _ [k IH]]; simpl; [by eexists|].
      rewrite Hy, IH. by eexists. }
    simpl. by rewrite Hx.
Qed.

(** ** The pass over the locations in closed form *)

Section CorrelatorPass.
Variable fromisoformat : string → option pydatetime.
Variable flags : FLAGS.t.
Variables start_date end_date : datetime.
Variable new_timezone : tzinfo.

Local Abbreviation step :=
  (correlate_location fromisoformat flags start_date end_date new_timezone).
Local Abbreviation pass :=
  (correlate fromisoformat flags start_date end_date new_timezone).
Local Abbreviation decode := (decode_timestamp fromisoformat).
Local Abbreviation matched :=
  (with_matches flags start_date end_date new_timezone).
Local Abbreviation fix_of :=
  (ping_waypoint flags start_date end_date new_timezone).

Lemma decode_timestamp_Ok (location : LocationPing) (t : datetime) :
  decode location = Ok t ↔ timestamp_parses fromisoformat location t.
Proof.
  unfold decode_timestamp, timestamp_parses, parse_timestamp, parse_with.
  destruct (timestamp location) as [ts|]; simpl.
  - destruct (fromisoformat (drop_last ts)) as [[t'|a]|] eqn:Ht; simpl; split.
    + intros [= ->]. by exists ts.
    + intros (ts' & Hts & Ht'). by simplify_eq.
    + done.
    + intros (ts' & Hts & Ht'). by simplify_eq.
    + done.
    + intros (ts' & Hts & Ht'). by simplify_eq.
  - split; [done|]. by intros (ts' & ? & _).
Qed.

Lemma with_matches_nil (journey : Journey) : matched [] journey = journey.
Proof. destruct journey. unfold with_matches. simpl. by rewrite app_nil_r. Qed.

Lemma with_matches_cons ping pings (journey : Journey) :
  matched (ping :: pings) journey = matched pings (matched [ping] journey).
Proof.
  unfold with_matches, ping_waypoint, in_window. simpl.
  f_equal. destruct (skipped _ _ _ _ _); simpl.
  - by rewrite app_nil_r.
  - destruct (_ && _); simpl; [|by rewrite app_nil_r].
    destruct (latitudeE7 ping.2); simpl; [|by rewrite app_nil_r].
    destruct (longitudeE7 ping.2); simpl; [|by rewrite app_nil_r].
    by rewrite <- app_assoc.
Qed.

Lemma with_matches_app pings1 pings2 (journey : Journey) :
  matched (pings1 ++ pings2) journey = matched pings2 (matched pings1 journey).
Proof.
  revert journey. induction pings1 as [|p l IH]; intros journey; simpl.
  - by rewrite with_matches_nil.
  - by rewrite with_matches_cons, IH, <- with_matches_cons.
Qed.

(** One iteration of the loop over the locations. *)
Lemma correlate_location_closed journeys location :
  step journeys location =
  (t ← decode location; Ok (matched [(t, location)] <$> journeys)).
Proof.
  unfold correlate_location, decode_timestamp.
  destruct (timestamp location) as [ts|]; simpl; [|done].
  destruct (parse_timestamp fromisoformat ts) as [[t|]|]; simpl; [|done..].
  destruct (skipped flags start_date end_date t location) eqn:Hs.
  - f_equal. rewrite <- (list_fmap_id journeys) at 1.
    apply list_fmap_ext. intros i [s e w] _.
    unfold with_matches, ping_waypoint. simpl. rewrite Hs. simpl.
    by rewrite app_nil_r.
  - apply skipped_false_iff in Hs as Hf.
    destruct Hf as (_ & _ & _ & [la Hla] & [lo Hlo] & _).
    apply mapM_Ok_fmap, Forall_forall. intros j _.
    rewrite (correlate_journey_present _ _ _ la lo) by done.
    f_equal. unfold attach, with_matches, ping_waypoint, append_waypoint.
    simpl. rewrite Hs, Hla, Hlo. simpl.
    destruct (in_window t j); simpl; [done|].
    destruct j. simpl. by rewrite app_nil_r.
Qed.

Lemma correlate_closed (locs : list LocationPing) (journeys : list Journey) :
  pass locs journeys =
  (times ← mapM decode locs; Ok (matched (zip times locs) <$> journeys)).
Proof.
  unfold correlate. revert journeys.
  induction locs as [|location locs IH]; intros journeys.
  - simpl. f_equal. rewrite <- (list_fmap_id journeys) at 1.
    apply list_fmap_ext. intros i j _. by rewrite with_matches_nil.
  - rewrite mapM_result_cons. simpl. rewrite correlate_location_closed.
    destruct (decode location) as [t|e]; simpl; [|done].
    rewrite IH. destruct (mapM decode locs) as [times|e]; simpl; [|done].
    f_equal. rewrite <- list_fmap_compose. apply list_fmap_ext.
    intros i j _. simpl. symmetry. apply with_matches_cons.
Qed.

End CorrelatorPass.

Section CorrelatorPassFacts.
Variable fromisoformat : string → option pydatetime.
Variable flags : FLAGS.t.
Variables start_date end_date : datetime.
Variable new_timezone : tzinfo.

Local Abbreviation pass :=
  (correlate fromisoformat flags start_date end_date new_timezone).
Local Abbreviation decode := (decode_timestamp fromisoformat).
Local Abbreviation matched :=
  (with_matches flags start_date end_date new_timezone).
Local Abbreviation fix_of :=
  (ping_waypoint flags start_date end_date new_timezone).

Lemma ping_waypoint_Some journey ping w :
  fix_of journey ping = Some w →
  skipped flags start_date end_date ping.1 ping.2 = false ∧
  in_window ping.1 journey = true ∧
  ∃ la lo,
    latitudeE7 ping.2 = Some la ∧ longitudeE7 ping.2 = Some lo ∧
    w = waypoint_of new_timezone ping.1 la lo.
Proof.
  unfold ping_waypoint.
  destruct (skipped _ _ _ _ _); [done|].
  destruct (in_window _ _); [|done].
  destruct (latitudeE7 ping.2) as [la|]; simpl; [|done].
  destruct (longitudeE7 ping.2) as [lo|]; simpl; [|done].
  intros [= <-]. eauto 10.
Qed.

Lemma decode_timestamp_Raise (location : LocationPing) (e : exn) :
  decode location = Raise e ↔
  (timestamp location = None ∧ e = KeyError "timestamp") ∨
  (∃ ts, timestamp location = Some ts ∧
     ((fromisoformat (drop_last ts) = None ∧
       e = ValueError (drop_last ts)) ∨
      (∃ a, fromisoformat (drop_last ts) = Some (Aware a) ∧
            e = TypeError))).
Proof.
  unfold decode_timestamp, parse_timestamp, parse_with.
  destruct (timestamp location) as [ts|] eqn:Hts; simpl.
  - destruct (fromisoformat (drop_last ts)) as [[t|a]|] eqn:Ht; simpl; split.
    + done.
    + intros H. break_hyps; by simplify_eq.
    + intros [= <-]. right. exists ts. split; [done|]. right. by exists a.
    + intros H. break_hyps; by simplify_eq.
    + intros [= <-]. right. exists ts. split; [done|]. by left.
    + intros H. break_hyps; by simplify_eq.
  - split; [intros [= <-]; by left|].
    intros H. break_hyps; by simplify_eq.
Qed.

(** X1: the pass over the locations first needs every timestamp, in
    order, and raises what the first failing one raises; otherwise each
    journey ends with the waypoints it had followed by the waypoints of
    the locations that pass the filters and fall into its window, in
    the order of the locations. *)
Theorem correlate_appends_matches_in_order
    (locs : list LocationPing) (journeys : list Journey) :
  pass locs journeys =
  (times ← mapM decode locs; Ok (matched (zip times locs) <$> journeys)).
Proof. apply correlate_closed. Qed.

(** X2: the journeys do not influence each other: the pass over a list
    of journeys is the pass over its parts, side by side. *)
Theorem correlate_journeys_independent
    (locs : list LocationPing) (journeys1 journeys2 : list Journey) :
  pass locs (journeys1 ++ journeys2) =
  (a ← pass locs journeys1; b ← pass locs journeys2; Ok (a ++ b)).
Proof.
  rewrite !correlate_closed.
  destruct (mapM decode locs) as [times|e]; simpl; [|done].
  by rewrite fmap_app.
Qed.

(** X3: the pass raises exactly when some location has no timestamp
    (KeyError), a timestamp that does not parse (ValueError, on the
    string without its last character) or a timestamp that parses to an
    aware datetime (TypeError, from the comparison with the naive start
    date); the exception is that of the first such location, and
    neither the journeys nor the other fields of the location matter. *)
Theorem correlate_raises_iff_bad_timestamp
    (locs : list LocationPing) (journeys : list Journey) (e : exn) :
  pass locs journeys = Raise e ↔
  ∃ before location after,
    locs = before ++ location :: after ∧
    Forall (λ l, ∃ t, timestamp_parses fromisoformat l t) before ∧
    ((timestamp location = None ∧ e = KeyError "timestamp") ∨
     (∃ ts, timestamp location = Some ts ∧
        ((fromisoformat (drop_last ts) = None ∧
          e = ValueError (drop_last ts)) ∨
         (∃ a, fromisoformat (drop_last ts) = Some (Aware a) ∧
               e = TypeError)))).
Proof.
  rewrite correlate_closed.
  transitivity (mapM decode locs = Raise e).
  { destruct (mapM decode locs); simpl; split; congruence. }
  rewrite mapM_Raise_iff.
  split; intros (before & location & after & -> & Hb & Hl);
    exists before, location, after; (split; [done|]); split.
  - eapply Forall_impl; [exact Hb|]. intros l [t Ht].
    exists t. by apply decode_timestamp_Ok.
  - by apply decode_timestamp_Raise.
  - eapply Forall_impl; [exact Hb|]. intros l [t Ht].
    exists t. by apply decode_timestamp_Ok.
  - by apply decode_timestamp_Raise.
Qed.

Lemma with_matches_well_matched pings journey :
  well_matched start_date end_date journey →
  well_matched start_date end_date (matched pings journey).
Proof.
  unfold well_matched, with_matches. simpl. intros Hold.
  apply Forall_app. split.
  - eapply Forall_impl; [exact Hold|]. by intros w.
  - apply Forall_forall. intros w Hw.
    apply list_elem_of_omap in Hw as (ping & _ & Hw).
    apply ping_waypoint_Some in Hw as (Hs & Hwin & la & lo & _ & _ & ->).
    apply skipped_false_iff in Hs as (Hsd & Hed & _).
    apply in_window_iff in Hwin.
    unfold waypoint_in_bounds, waypoint_of. simpl.
    by rewrite utc_instant_astimezone, utc_instant_localize.
Qed.

Lemma correlate_well_matched
    (locs : list LocationPing) (journeys journeys' : list Journey) :
  Forall (well_matched start_date end_date) journeys →
  pass locs journeys = Ok journeys' →
  Forall (well_matched start_date end_date) journeys'.
Proof.
  intros Hinv. rewrite correlate_closed.
  destruct (mapM decode locs) as [times|e]; simpl; [|done].
  intros [= <-]. apply Forall_fmap.
  eapply Forall_impl; [exact Hinv|]. intros j. simpl.
  apply with_matches_well_matched.
Qed.

(** X4: the pass keeps the waypoints inside their bounds: when every
    waypoint of every journey lies in the tolerance window of its
    journey and in the date range before the pass, so it is after it;
    the instant of an appended waypoint is the timestamp of its
    location, whatever the display zone. *)
Theorem correlate_keeps_waypoints_in_bounds
    (locs : list LocationPing) (journeys journeys' : list Journey) :
  Forall (well_matched start_date end_date) journeys →
  pass locs journeys = Ok journeys' →
  Forall (well_matched start_date end_date) journeys'.
Proof. apply correlate_well_matched. Qed.

End CorrelatorPassFacts.

(** ** The extractor over documents *)

(** A loop whose body only appends to the list it keeps. *)
Lemma for_each_accumulates {A B} (body : list B → A → result (list B))
    (l : list A) (acc : list B) :
  (∀ acc x, body acc x = (r ← body [] x; Ok (acc ++ r))) →
  for_each body l acc = (r ← for_each body l []; Ok (acc ++ r)).
Proof.
  intros Hbody. revert acc.
  induction l as [|x l IH]; intros acc; simpl.
  - by rewrite app_nil_r.
  - rewrite (Hbody acc x).
    destruct (body [] x) as [r|e]; simpl; [|done].
    rewrite (IH (acc ++ r)), (IH r).
    destruct (for_each body l []) as [r'|e]; simpl; [|done].
    by rewrite app_assoc.
Qed.

Section ExtractorRun.
Variable fromisoformat : string → option pydatetime.
Variables start_date end_date : datetime.

Local Abbreviation extract :=
  (extract_event fromisoformat start_date end_date).
Local Abbreviation extract_doc :=
  (extract_history fromisoformat start_date end_date).
Local Abbreviation extract_all :=
  (extract_journeys fromisoformat start_date end_date).

Lemma extract_event_accumulates journeys timeline_event :
  extract journeys timeline_event =
  (r ← extract [] timeline_event; Ok (journeys ++ r)).
Proof.
  unfold extract_event.
  destruct (activitySegment timeline_event) as [activity|]; simpl;
    [|by rewrite app_nil_r].
  destruct (activityType activity) as [ty|]; simpl; [|done].
  destruct (String.eqb ty "MOTORCYCLING"); [|simpl; by rewrite app_nil_r].
  destruct (duration activity) as [d|]; simpl; [|done].
  destruct (startTimestamp d) as [ss|]; simpl; [|done].
  destruct (parse_timestamp fromisoformat ss) as [start|]; simpl; [|done].
  destruct (endTimestamp d) as [es|]; simpl; [|done].
  destruct (parse_timestamp fromisoformat es) as [end_|]; simpl; [|done].
  destruct start as [s|]; simpl; [|done].
  destruct (s <? start_date); simpl; [by rewrite app_nil_r|].
  destruct end_ as [e|]; simpl; [|done].
  destruct (e >? end_date); simpl; [by rewrite app_nil_r | done].
Qed.

Lemma extract_history_accumulates journeys semantic_history :
  extract_doc journeys semantic_history =
  (r ← extract_doc [] semantic_history; Ok (journeys ++ r)).
Proof.
  unfold extract_history.
  destruct (timelineObjects semantic_history) as [events|]; simpl; [|done].
  apply for_each_accumulates. intros acc x. apply extract_event_accumulates.
Qed.

Lemma extract_event_fresh journeys timeline_event journeys' :
  Forall (freshly_extracted start_date end_date) journeys →
  extract journeys timeline_event = Ok journeys' →
  Forall (freshly_extracted start_date end_date) journeys'.
Proof.
  intros Hold Hrun.
  apply extract_event_inv in Hrun as [->|(s & e & _ & [Hs He] & ->)];
    [done|].
  apply Forall_app. split; [done|]. by repeat constructor.
Qed.

(** X5: extraction keeps the order of the documents and of their events
    and merges nothing: the journeys of a sequence of documents are the
    journeys of its first part followed by those of the rest, so a
    segment that occurs twice yields two journeys; an exception in any
    document leaves no journeys at all. *)
Theorem extract_journeys_app (histories1 histories2 : list SemanticHistory) :
  extract_all (histories1 ++ histories2) =
  (a ← extract_all histories1; b ← extract_all histories2; Ok (a ++ b)).
Proof.
  unfold extract_journeys. rewrite for_each_app.
  destruct (for_each _ histories1 []) as [a|e]; simpl; [|done].
  apply for_each_accumulates. intros acc x.
  apply extract_history_accumulates.
Qed.

Lemma extract_journeys_fresh
    (histories : list SemanticHistory) (journeys : list Journey) :
  extract_all histories = Ok journeys →
  Forall (freshly_extracted start_date end_date) journeys.
Proof.
  unfold extract_journeys. intros Hrun.
  assert (∀ l acc acc',
            Forall (freshly_extracted start_date end_date) acc →
            for_each extract_doc l acc = Ok acc' →
            Forall (freshly_extracted start_date end_date) acc') as Hdocs.
  { induction l as [|h l IH]; intros acc acc' Hacc; simpl.
    - by intros [= <-].
    - destruct (extract_doc acc h) as [acc1|e] eqn:Hh; simpl; [|done].
      apply IH. revert Hh. unfold extract_history.
      destruct (timelineObjects h) as [events|]; simpl; [|done].
      clear IH. revert acc Hacc.
      induction events as [|ev events IHe]; intros acc Hacc; simpl.
      + by intros [= <-].
      + destruct (extract acc ev) as [acc2|e] eqn:Hev; simpl; [|done].
        apply IHe. by eapply extract_event_fresh. }
  by eapply Hdocs.
Qed.

(** X6: every journey the extractor returns has no waypoints, starts no
    earlier than the start date and ends no later than the end date. *)
Theorem extract_journeys_fresh_and_in_range
    (histories : list SemanticHistory) (journeys : list Journey) :
  extract_all histories = Ok journeys →
  Forall (freshly_extracted start_date end_date) journeys.
Proof. apply extract_journeys_fresh. Qed.

(** X7: an event raises exactly in these cases, examined in this
    order: its activity segment has no activityType (KeyError); it is a
    motorcycling segment whose duration or startTimestamp is absent
    (KeyError) or whose start does not parse (ValueError), or whose
    endTimestamp is absent (KeyError) or whose end does not parse
    (ValueError); both parse and the start is an aware datetime
    (TypeError); or the start is a naive datetime not before the start
    date and the end is an aware datetime (TypeError).  With a start
    before the start date the end is not compared. *)
Theorem extract_event_raises_iff
    (journeys : list Journey) (timeline_event : TimelineEvent) (e : exn) :
  extract journeys timeline_event = Raise e ↔
  ∃ activity,
    activitySegment timeline_event = Some activity ∧
    ((activityType activity = None ∧ e = KeyError "activityType") ∨
     (activityType activity = Some "MOTORCYCLING" ∧
      ((duration activity = None ∧ e = KeyError "duration") ∨
       ∃ d, duration activity = Some d ∧
         ((startTimestamp d = None ∧ e = KeyError "startTimestamp") ∨
          ∃ ss, startTimestamp d = Some ss ∧
            ((fromisoformat (drop_last ss) = None ∧
              e = ValueError (drop_last ss)) ∨
             ∃ start, fromisoformat (drop_last ss) = Some start ∧
               ((endTimestamp d = None ∧ e = KeyError "endTimestamp") ∨
                ∃ es, endTimestamp d = Some es ∧
                  ((fromisoformat (drop_last es) = None ∧
                    e = ValueError (drop_last es)) ∨
                   ∃ end_, fromisoformat (drop_last es) = Some end_ ∧
                     e = TypeError ∧
                     ((∃ a, start = Aware a) ∨
                      (∃ s a, start = Naive s ∧ start_date ≤ s ∧
                              end_ = Aware a))))))))).
Proof.
  unfold extract_event, parse_timestamp, parse_with.
  destruct (activitySegment timeline_event) as [activity|] eqn:Hseg; simpl;
    [|split; [done | intros H; break_hyps; by simplify_eq]].
  destruct (activityType activity) as [ty|] eqn:Hty; simpl;
    [|split; [intros [= <-]; eauto | intros H; break_hyps; by simplify_eq]].
  destruct (String.eqb_spec ty "MOTORCYCLING") as [->|Hne];
    [|split; [done | intros H; break_hyps; by simplify_eq]].
  destruct (duration activity) as [d|] eqn:Hd; simpl;
    [|split; [intros [= <-]; eauto 10
             | intros H; break_hyps; by simplify_eq]].
  destruct (startTimestamp d) as [ss|] eqn:Hss; simpl;
    [|split; [intros [= <-]; eauto 10
             | intros H; break_hyps; by simplify_eq]].
  destruct (fromisoformat (drop_last ss)) as [start|] eqn:Hs; simpl;
    [|split; [intros [= <-]; eauto 15
             | intros H; break_hyps; by simplify_eq]].
  destruct (endTimestamp d) as [es|] eqn:Hes; simpl.
  2:{ split; [|intros H; break_hyps; by simplify_eq].
      intros [= <-]. exists activity. split; [done|]. right. split; [done|].
      right. exists d. split; [done|]. right. exists ss. split; [done|].
      right. exists start. split; [done|]. by left. }
  destruct (fromisoformat (drop_last es)) as [end_|] eqn:He; simpl.
  2:{ split; [|intros H; break_hyps; by simplify_eq].
      intros [= <-]. exists activity. split; [done|]. right. split; [done|].
      right. exists d. split; [done|]. right. exists ss. split; [done|].
      right. exists start. split; [done|]. right. exists es.
      split; [done|]. by left. }
  destruct start as [s|a]; simpl.
  - destruct (Z.ltb_spec s start_date) as [Hlo|Hlo].
    + split; [done|]. intros H. break_hyps; simplify_eq. lia.
    + destruct end_ as [en|a]; simpl.
      * split; [by destruct (en >? end_date)|].
        intros H. break_hyps; by simplify_eq.
      * split; [|intros H; break_hyps; by simplify_eq]. intros [= <-].
        exists activity. split; [done|]. right. split; [done|].
        right. exists d. split; [done|]. right. exists ss. split; [done|].
        right. exists (Naive s). split; [done|]. right. exists es.
        split; [done|]. right. exists (Aware a). split; [done|].
        split; [done|]. right. by exists s, a.
  - split; [|intros H; break_hyps; by simplify_eq]. intros [= <-].
    exists activity. split; [done|]. right. split; [done|].
    right. exists d. split; [done|]. right. exists ss. split; [done|].
    right. exists (Aware a). split; [done|]. right. exists es.
    split; [done|]. right. exists end_. split; [done|].
    split; [done|]. left. by exists a.
Qed.

End ExtractorRun.

(** ** More on sorting *)

Section SortMore.
Context {A : Type} (key : A → Z).

(** A list in order is left as it is. *)
Lemma sort_by_sorted_id (l : list A) :
  StronglySorted (le_key key) l → sort_by (lt_key key) l = l.
Proof.
  induction 1 as [|x l Hl IH Hx]; simpl; [done|].
  rewrite IH. destruct l as [|y l']; simpl; [done|].
  apply Forall_cons in Hx as [Hxy _]. unfold le_key in Hxy.
  unfold lt_key at 1. destruct (Z.ltb_spec (key y) (key x)); [lia|done].
Qed.

Lemma sort_by_idempotent (l : list A) :
  sort_by (lt_key key) (sort_by (lt_key key) l) = sort_by (lt_key key) l.
Proof. apply sort_by_sorted_id, sort_by_sorted. Qed.
End SortMore.

(** Sorting commutes with a map that keeps the comparisons, and keeps a
    relation between two lists whose comparisons agree. *)
Lemma sort_by_fmap {A B} (f : A → B) (ltA : A → A → bool)
    (ltB : B → B → bool) (l : list A) :
  (∀ a b, ltB (f a) (f b) = ltA a b) →
  sort_by ltB (f <$> l) = f <$> sort_by ltA l.
Proof.
  intros Hlt. induction l as [|x l IH]; csimpl; [done|].
  rewrite IH. generalize (sort_by ltA l). intros k.
  induction k as [|y k IHk]; csimpl; [done|].
  rewrite Hlt. destruct (ltA y x); csimpl; [by rewrite IHk | done].
Qed.

Lemma sort_by_Forall2 {A B} (R : A → B → Prop) (ltA : A → A → bool)
    (ltB : B → B → bool) (l : list A) (k : list B) :
  (∀ a a' b b', R a b → R a' b' → ltA a a' = ltB b b') →
  Forall2 R l k → Forall2 R (sort_by ltA l) (sort_by ltB k).
Proof.
  intros Hlt. induction 1 as [|a b l k Hab _ IH]; simpl; [constructor|].
  revert IH. generalize (sort_by ltA l) (sort_by ltB k). intros l' k' IH.
  induction IH as [|a' b' l' k' Hab' Hrest IH']; simpl.
  - by repeat constructor.
  - rewrite (Hlt a' a b' b) by done.
    destruct (ltB b' b); by repeat constructor.
Qed.

Lemma filter_fmap_key {A} (key : A → Z) (f : A → A) (k : Z) (l : list A) :
  (∀ a, key (f a) = key a) →
  filter (λ a, key a = k) (f <$> l) = f <$> filter (λ a, key a = k) l.
Proof.
  intros Hkey. induction l as [|x l IH]; csimpl; [done|].
  rewrite !filter_cons, Hkey, IH. by case_decide.
Qed.

(** ** More on the assembler *)

Section AssemblerMore.
Variable isoformat : aware_datetime → string.
Variable new_timezone : tzinfo.

Local Abbreviation assembled := (assemble isoformat new_timezone).
Local Abbreviation feature_of := (make_feature isoformat new_timezone).

Lemma assemble_journeys (journeys : list Journey) :
  (assembled journeys).1 = sort_waypoints_of <$> sort_journeys journeys.
Proof. apply build_features_journeys. Qed.

Lemma assemble_features (journeys : list Journey) :
  (assembled journeys).2 =
  imap (λ i j, feature_of (1 + Z.of_nat i) (sort_waypoints_of j))
    (sort_journeys journeys).
Proof. apply build_features_features. Qed.

(** X8: the features are numbered from "1" in the order of the output:
    the feature at position i (from 0) has the identifier str(i + 1),
    and no two features share an identifier. *)
Theorem feature_ids_sequential_and_distinct (journeys : list Journey) :
  (∀ i f, (assembled journeys).2 !! i = Some f →
          feature_id f = pretty (Z.of_nat i + 1)) ∧
  NoDup (feature_id <$> (assembled journeys).2).
Proof.
  assert (∀ i f, (assembled journeys).2 !! i = Some f →
                 feature_id f = pretty (Z.of_nat i + 1)) as Hid.
  { intros i f. rewrite assemble_features, list_lookup_imap.
    destruct (sort_journeys journeys !! i) as [j|]; simpl; [|done].
    intros [= <-]. simpl. f_equal. lia. }
  split; [done|]. apply NoDup_alt. intros i j x.
  rewrite !list_lookup_fmap.
  destruct ((assembled journeys).2 !! i) as [f|] eqn:Hi; simpl; [|done].
  destruct ((assembled journeys).2 !! j) as [g|] eqn:Hj; simpl; [|done].
  intros [= <-] [= Hg]. rewrite (Hid _ _ Hi), (Hid _ _ Hj) in Hg.
  apply (inj pretty) in Hg. lia.
Qed.

(** X9: both sorts are stable: journeys with the same startTime stay in
    the order they had, and so do the waypoints of a journey that have
    the same instant. *)
Theorem assemble_sorts_stably (journeys : list Journey) (k : Z) :
  filter (λ j, startTime j = k) (assembled journeys).1 =
    sort_waypoints_of <$> filter (λ j, startTime j = k) journeys ∧
  ∀ l : list Waypoint,
    filter (λ w, utc_instant (time w) = k) (sort_waypoints l) =
    filter (λ w, utc_instant (time w) = k) l.
Proof.
  split.
  - rewrite assemble_journeys, (filter_fmap_key startTime) by done.
    f_equal. apply (sort_by_stable startTime).
  - intros l. rewrite sort_waypoints_by_instant.
    apply (sort_by_stable (utc_instant ∘ time)).
Qed.

(** X10: assembling what the assembler returned changes nothing:
    journeys and waypoints in order are left in place. *)
Theorem assemble_idempotent (journeys : list Journey) :
  assembled (assembled journeys).1 = assembled journeys.
Proof.
  assert (sort_journeys (assembled journeys).1 = (assembled journeys).1)
    as Hsorted.
  { rewrite assemble_journeys. unfold sort_journeys at 1.
    rewrite (sort_by_fmap sort_waypoints_of (lt_key startTime)) by done.
    by rewrite (sort_by_idempotent startTime). }
  assert (∀ j, sort_waypoints_of (sort_waypoints_of j) = sort_waypoints_of j)
    as Hwp.
  { intros j. unfold sort_waypoints_of. simpl. f_equal.
    rewrite !sort_waypoints_by_instant.
    apply (sort_by_idempotent (utc_instant ∘ time)). }
  apply injective_projections.
  - rewrite (assemble_journeys (assembled journeys).1), Hsorted,
      assemble_journeys, <- list_fmap_compose.
    apply list_fmap_ext. intros i j _. apply Hwp.
  - rewrite (assemble_features (assembled journeys).1), Hsorted,
      (assemble_features journeys), assemble_journeys, imap_fmap.
    apply imap_ext. intros i j _. simpl. by rewrite Hwp.
Qed.

End AssemblerMore.

(** ** The display zone *)

Lemma imap_Forall2_fmap {A B C D} (R : A → B → Prop) (g1 : C → D) (g2 : C → D)
    (f1 : nat → A → C) (f2 : nat → B → C) (l1 : list A) (l2 : list B) :
  (∀ i a b, R a b → g1 (f1 i a) = g2 (f2 i b)) →
  Forall2 R l1 l2 → g1 <$> imap f1 l1 = g2 <$> imap f2 l2.
Proof.
  intros Hg H. revert f1 f2 Hg.
  induction H as [|a b l1 l2 Hab _ IH]; intros f1 f2 Hg; csimpl; [done|].
  rewrite (Hg 0%nat a b Hab). f_equal. apply IH.
  intros i a' b' Hab'. by apply Hg.
Qed.

Section DisplayZone.
Variable fromisoformat : string → option pydatetime.
Variable flags : FLAGS.t.
Variables start_date end_date : datetime.
Variables zone1 zone2 : tzinfo.
Variables isoformat1 isoformat2 : aware_datetime → string.

Local Abbreviation pass1 :=
  (correlate fromisoformat flags start_date end_date zone1).
Local Abbreviation pass2 :=
  (correlate fromisoformat flags start_date end_date zone2).
Local Abbreviation matched1 :=
  (with_matches flags start_date end_date zone1).
Local Abbreviation matched2 :=
  (with_matches flags start_date end_date zone2).

Lemma same_journey_refl_fresh (journey : Journey) :
  waypoints journey = [] → same_journey journey journey.
Proof. intros Hw. repeat split. rewrite Hw. constructor. Qed.

Lemma ping_waypoint_same ping (j1 j2 : Journey) :
  startTime j1 = startTime j2 → endTime j1 = endTime j2 →
  option_Forall2 same_fix
    (ping_waypoint flags start_date end_date zone1 j1 ping)
    (ping_waypoint flags start_date end_date zone2 j2 ping).
Proof.
  intros Hs He. unfold ping_waypoint, in_window. rewrite Hs, He.
  destruct (skipped _ _ _ _ _); [constructor|].
  destruct (_ && _); [|constructor].
  destruct (latitudeE7 ping.2) as [la|]; simpl; [|constructor].
  destruct (longitudeE7 ping.2) as [lo|]; simpl; [|constructor].
  constructor. repeat split. simpl. by rewrite !utc_instant_astimezone.
Qed.

Lemma with_matches_same pings (j1 j2 : Journey) :
  same_journey j1 j2 → same_journey (matched1 pings j1) (matched2 pings j2).
Proof.
  intros (Hs & He & Hw). repeat split; simpl; [done..|].
  apply Forall2_app; [done|].
  induction pings as [|p pings IH]; csimpl; [constructor|].
  destruct (ping_waypoint_same p j1 j2 Hs He); by try constructor.
Qed.

Lemma correlate_same (locs : list LocationPing) (js1 js2 a : list Journey) :
  Forall2 same_journey js1 js2 →
  pass1 locs js1 = Ok a →
  ∃ b, pass2 locs js2 = Ok b ∧ Forall2 same_journey a b.
Proof.
  intros Hsame. rewrite !correlate_closed.
  destruct (mapM _ locs) as [times|e]; simpl; [|done].
  intros [= <-]. eexists. split; [done|].
  apply Forall2_fmap. eapply Forall2_impl; [exact Hsame|].
  intros j1 j2. apply with_matches_same.
Qed.

Lemma sort_waypoints_same (l1 l2 : list Waypoint) :
  Forall2 same_fix l1 l2 →
  Forall2 same_fix (sort_waypoints l1) (sort_waypoints l2).
Proof.
  apply sort_by_Forall2. intros a a' b b' (_ & _ & Hab) (_ & _ & Hab').
  by rewrite !aware_lt_utc, Hab, Hab'.
Qed.

Lemma sort_journeys_same (js1 js2 : list Journey) :
  Forall2 same_journey js1 js2 →
  Forall2 same_journey (sort_journeys js1) (sort_journeys js2).
Proof.
  apply sort_by_Forall2. intros a a' b b' (Hab & _) (Hab' & _).
  unfold lt_key. by rewrite Hab, Hab'.
Qed.

Lemma coordinates_same (l1 l2 : list Waypoint) :
  Forall2 same_fix l1 l2 →
  (λ w, [lon w; lat w]) <$> l1 = (λ w, [lon w; lat w]) <$> l2.
Proof.
  induction 1 as [|w1 w2 l1 l2 (Hla & Hlo & _) _ IH]; csimpl; [done|].
  by rewrite Hla, Hlo, IH.
Qed.

Lemma assemble_same (js1 js2 : list Journey) :
  Forall2 same_journey js1 js2 →
  Forall2 same_journey (assemble isoformat1 zone1 js1).1
    (assemble isoformat2 zone2 js2).1 ∧
  (λ f, (feature_id f, geometry f)) <$> (assemble isoformat1 zone1 js1).2 =
  (λ f, (feature_id f, geometry f)) <$> (assemble isoformat2 zone2 js2).2.
Proof.
  intros Hsame. apply sort_journeys_same in Hsame.
  assert (∀ j1 j2, same_journey j1 j2 →
            same_journey (sort_waypoints_of j1) (sort_waypoints_of j2))
    as Hswo.
  { intros j1 j2 (Hs & He & Hw). repeat split; simpl; [done..|].
    by apply sort_waypoints_same. }
  split.
  - rewrite !assemble_journeys. apply Forall2_fmap.
    eapply Forall2_impl; [exact Hsame|]. done.
  - rewrite !assemble_features.
    eapply imap_Forall2_fmap; [|exact Hsame].
    intros i j1 j2 Hj. apply Hswo in Hj as (_ & _ & Hw).
    unfold make_feature. simpl in *.
    by rewrite (coordinates_same _ _ Hw).
Qed.

(** X11: the display zone decides nothing but the rendering: two passes
    over the same locations with different zones, from journeys that
    agree, raise alike or give journeys that agree in their bounds and,
    waypoint by waypoint, in latitude, longitude and instant; the
    assembler then gives features with the same identifiers and the
    same geometry. *)
Theorem display_zone_only_rendering
    (locs : list LocationPing) (js1 js2 : list Journey) :
  Forall2 same_journey js1 js2 →
  (∀ e, pass1 locs js1 = Raise e ↔ pass2 locs js2 = Raise e) ∧
  (∀ a, pass1 locs js1 = Ok a →
     ∃ b, pass2 locs js2 = Ok b ∧
       Forall2 same_journey a b ∧
       Forall2 same_journey (assemble isoformat1 zone1 a).1
         (assemble isoformat2 zone2 b).1 ∧
       (λ f, (feature_id f, geometry f))
         <$> (assemble isoformat1 zone1 a).2 =
       (λ f, (feature_id f, geometry f))
         <$> (assemble isoformat2 zone2 b).2).
Proof.
  intros Hsame. split.
  - intros e. rewrite !correlate_closed.
    by destruct (mapM _ locs).
  - intros a Ha.
    destruct (correlate_same _ _ _ _ Hsame Ha) as (b & Hb & Hab).
    exists b. split; [done|]. split; [done|]. by apply assemble_same.
Qed.

End DisplayZone.

(** ** The timestamp slice *)

Lemma drop_last_snoc (s : string) (c : ascii) :
  drop_last (s +:+ String c "") = s.
Proof.
  induction s as [|a s IH]; simpl; [done|].
  rewrite IH. by destruct s.
Qed.

(** X12: the slice [[:-1]] removes the last character of a timestamp
    whatever it is, a digit as well as the zone marker: the parser sees
    a string of the form s + c without c, and the empty string as it
    is. *)
Theorem timestamp_last_character_dropped_unchecked
    (fromisoformat : string → option pydatetime) :
  (∀ s c, parse_timestamp fromisoformat (s +:+ String c "") =
          parse_with fromisoformat s) ∧
  parse_timestamp fromisoformat "" = parse_with fromisoformat "".
Proof.
  split; [|done]. intros s c. unfold parse_timestamp.
  by rewrite drop_last_snoc.
Qed.

(** ** The whole run *)

Section MainRun.
Variable fromisoformat : string → option pydatetime.
Variable strptime_date : string → option Z.
Variable pytz_timezone : string → tzinfo.
Variable isoformat : aware_datetime → string.

Local Abbreviation program :=
  (main fromisoformat strptime_date pytz_timezone isoformat).

Lemma main_Ok_stages (flags : FLAGS.t) (utcnow : datetime)
    (location_history : LocationHistory)
    (semantic_histories : list SemanticHistory)
    (out : list Journey * list Feature) :
  program flags utcnow location_history semantic_histories = Ok out →
  ∃ start_date end_date extracted locs correlated,
    parse_with strptime_date (FLAGS.start_date flags) = Ok start_date ∧
    match FLAGS.end_date flags with
    | None => utcnow = end_date
    | Some s => parse_with strptime_date s = Ok end_date
    end ∧
    extract_journeys fromisoformat start_date end_date semantic_histories
      = Ok extracted ∧
    locations location_history = Some locs ∧
    correlate fromisoformat flags start_date end_date
      (pytz_timezone "US/Pacific") locs extracted = Ok correlated ∧
    out = assemble isoformat (pytz_timezone "US/Pacific") correlated.
Proof.
  unfold main. intros H.
  apply bind_Ok_inv in H as (sd & Hsd & H).
  apply bind_Ok_inv in H as (ed & Hed & H).
  apply bind_Ok_inv in H as (js & Hx & H).
  apply bind_Ok_inv in H as (locs & Hl & H). apply getitem_Ok in Hl.
  apply bind_Ok_inv in H as (js' & Hc & H).
  injection H as <-. exists sd, ed, js, locs, js'.
  split; [done|]. split; [|done].
  destruct (FLAGS.end_date flags); [done|]. by injection Hed.
Qed.

Lemma correlate_extends flags start_date end_date new_timezone
    (locs : list LocationPing) (journeys journeys' : list Journey) :
  correlate fromisoformat flags start_date end_date new_timezone
    locs journeys = Ok journeys' →
  Forall2 extends journeys journeys'.
Proof.
  intros Hrun.
  eapply (for_each_preserves _ (Forall2 extends)); [|exact Hrun].
  intros s0 x s1. apply correlate_location_extends.
Qed.

Lemma extends_bounds (journeys journeys' : list Journey) :
  Forall2 extends journeys journeys' →
  bounds <$> journeys' = bounds <$> journeys.
Proof.
  induction 1 as [|j j' l l' (Hs & He & _) _ IH]; csimpl; [done|].
  unfold bounds at 1 3. by rewrite Hs, He, IH.
Qed.

Lemma assemble_bounds new_timezone (journeys : list Journey) :
  bounds <$> (assemble isoformat new_timezone journeys).1 ≡ₚ
  bounds <$> journeys.
Proof.
  rewrite assemble_journeys, <- list_fmap_compose.
  change (bounds ∘ sort_waypoints_of) with bounds.
  apply fmap_Permutation, sort_by_Permutation.
Qed.

(** X13: the locations never add or remove a feature: a run that
    returns gives as many features and journeys as the extractor found
    motorcycling segments in range, and the journeys have the bounds of
    the extracted ones, rearranged. *)
Theorem main_features_follow_extraction (flags : FLAGS.t) (utcnow : datetime)
    (location_history : LocationHistory)
    (semantic_histories : list SemanticHistory)
    (journeys : list Journey) (features : list Feature) :
  program flags utcnow location_history semantic_histories
    = Ok (journeys, features) →
  ∃ start_date end_date extracted,
    parse_with strptime_date (FLAGS.start_date flags) = Ok start_date ∧
    match FLAGS.end_date flags with
    | None => utcnow = end_date
    | Some s => parse_with strptime_date s = Ok end_date
    end ∧
    extract_journeys fromisoformat start_date end_date semantic_histories
      = Ok extracted ∧
    length features = length extracted ∧
    length journeys = length extracted ∧
    bounds <$> journeys ≡ₚ bounds <$> extracted.
Proof.
  intros Hrun.
  apply main_Ok_stages in Hrun
    as (sd & ed & extracted & locs & correlated
        & Hsd & Hed & Hx & _ & Hc & Hout).
  exists sd, ed, extracted. split; [done|]. split; [done|]. split; [done|].
  apply correlate_extends in Hc.
  pose proof (Forall2_length _ _ _ Hc) as Hlen.
  pose proof (assemble_bounds (pytz_timezone "US/Pacific") correlated)
    as Hperm.
  rewrite <- Hout in Hperm. simpl in Hperm.
  rewrite (extends_bounds _ _ Hc) in Hperm.
  apply (f_equal snd) in Hout as Hf. apply (f_equal fst) in Hout as Hj.
  simpl in Hf, Hj.
  split; [|split; [|done]].
  - rewrite Hf, assemble_features, length_imap. unfold sort_journeys.
    rewrite length_sort_by. lia.
  - apply Permutation_length in Hperm. by rewrite !length_fmap in Hperm.
Qed.

(** X14: in the output of a run that returns, every journey lies in the
    date range and every waypoint lies, by its instant, strictly inside
    the tolerance window of its journey and in the date range. *)
Theorem main_waypoints_within_bounds (flags : FLAGS.t) (utcnow : datetime)
    (location_history : LocationHistory)
    (semantic_histories : list SemanticHistory)
    (journeys : list Journey) (features : list Feature) :
  program flags utcnow location_history semantic_histories
    = Ok (journeys, features) →
  ∃ start_date end_date,
    parse_with strptime_date (FLAGS.start_date flags) = Ok start_date ∧
    match FLAGS.end_date flags with
    | None => utcnow = end_date
    | Some s => parse_with strptime_date s = Ok end_date
    end ∧
    Forall (λ j, start_date ≤ startTime j ∧ endTime j ≤ end_date ∧
                 well_matched start_date end_date j) journeys.
Proof.
  intros Hrun.
  apply main_Ok_stages in Hrun
    as (sd & ed & extracted & locs & correlated
        & Hsd & Hed & Hx & _ & Hc & Hout).
  exists sd, ed. split; [done|]. split; [done|].
  apply extract_journeys_fresh in Hx.
  assert (Forall (well_matched sd ed) correlated) as Hwm.
  { eapply correlate_well_matched; [|exact Hc].
    eapply Forall_impl; [exact Hx|]. intros j (Hw & _).
    unfold well_matched. rewrite Hw. constructor. }
  assert (Forall (λ j, sd ≤ startTime j ∧ endTime j ≤ ed) correlated) as Hin.
  { apply correlate_extends in Hc. clear -Hc Hx.
    induction Hc as [|j j' l l' (Hs & He & _) _ IH]; [constructor|].
    apply Forall_cons in Hx as [(_ & ? & ?) Hx].
    constructor; [|by apply IH]. rewrite Hs, He. done. }
  apply (f_equal fst) in Hout. simpl in Hout. subst journeys.
  rewrite assemble_journeys. apply Forall_fmap.
  unfold sort_journeys. rewrite sort_by_Permutation.
  apply Forall_forall. intros j Hj.
  rewrite Forall_forall in Hwm, Hin.
  destruct (Hin j Hj) as [Hs He]. specialize (Hwm j Hj).
  simpl. split; [done|]. split; [done|].
  unfold well_matched in *. simpl.
  unfold sort_waypoints. rewrite sort_by_Permutation.
  eapply Forall_impl; [exact Hwm|]. by intros w.
Qed.

End MainRun.

(** ** Loading the semantic history *)

Lemma endswith_slash_snoc (s : string) : endswith_slash (s +:+ "/") = true.
Proof.
  induction s as [|c s IH]; simpl; [done|].
  destruct (s +:+ "/") eqn:Hs; [by destruct s|done].
Qed.

(** X15: formatting the input directory never supplies a missing
    separator: the result ends with a slash exactly when the flag does,
    and then it is the flag with a second slash. *)
Theorem format_input_directory_keeps_ending (flag : string) :
  endswith_slash (format_input_directory flag) = endswith_slash flag ∧
  (endswith_slash flag = true → format_input_directory flag = flag +:+ "/") ∧
  (endswith_slash flag = false → format_input_directory flag = flag).
Proof.
  unfold format_input_directory.
  destruct (endswith_slash flag) eqn:Hf; [|done].
  by rewrite endswith_slash_snoc.
Qed.

Lemma re_split_separator_free (s : string) :
  separator_free s = true → re_split s = [s].
Proof.
  induction s as [|c s IH]; simpl; [done|].
  intros [Hc Hs]%andb_true_iff. apply negb_true_iff in Hc.
  by rewrite Hc, IH.
Qed.

Lemma re_split_first (a s : string) (c : ascii) :
  separator_free a = true → is_separator c = true →
  re_split (a +:+ String c s) = a :: re_split s.
Proof.
  intros Ha Hc. induction a as [|x a IH]; simpl.
  - by rewrite Hc.
  - simpl in Ha. apply andb_true_iff in Ha as [Hx Ha].
    apply negb_true_iff in Hx. by rewrite Hx, (IH Ha).
Qed.

Lemma append_empty_r (s : string) : s +:+ "" = s.
Proof.
  induction s as [|c s IH]; [done|].
  change (String c (s +:+ "") = String c s). by rewrite IH.
Qed.

Lemma filter_none {A} (P : A → Prop) `{!∀ x, Decision (P x)} (l : list A) :
  (∀ x, x ∈ l → ¬ P x) → filter P l = [].
Proof.
  induction l as [|x l IH]; intros Hl; [done|].
  rewrite filter_cons, decide_False by (apply Hl; by left).
  apply IH. intros y Hy. apply Hl. by right.
Qed.

Lemma index_of_lt (x : string) (l : list string) (i : nat) :
  index_of x l = Some i → (i < length l)%nat.
Proof.
  revert i. induction l as [|y l IH]; intros i; simpl; [done|].
  destruct (String.eqb y x); [intros [= <-]; lia|].
  destruct (index_of x l) as [j|]; simpl; [|done].
  intros [= <-]. specialize (IH j eq_refl). lia.
Qed.

Lemma bind_Loaded {A B} (f : A → loading B) (a : A) : (Loaded a ≫= f) = f a.
Proof. reflexivity. Qed.

Section LoaderFacts.
Variable listdir : string → option (list string).
Variable read_json : string → option SemanticHistory.
Variable py_int : string → option Z.
Variable title : string → string.
Variables year month : datetime → Z.
Variables start_date end_date : datetime.

Local Abbreviation file_month := (month_of_file title).
Local Abbreviation load_one :=
  (load_file read_json py_int title year month start_date end_date).
Local Abbreviation load_folder :=
  (load_year listdir read_json py_int title year month start_date end_date).
Local Abbreviation in_range :=
  (in_month_range (year start_date) (month start_date)
     (year end_date) (month end_date)).

(** X16: the month of a file is looked up from the part of its name
    between the first and the second separator ([_] or [.]), title-cased,
    in the English month names; a name without a separator raises
    IndexError, and a month that is found lies between 0 (the empty
    name) and 12. *)
Theorem month_of_file_second_piece :
  (∀ a b rest c,
     separator_free a = true → separator_free b = true →
     is_separator c = true →
     rest = "" ∨ (∃ c' r, is_separator c' = true ∧ rest = String c' r) →
     file_month (a +:+ String c (b +:+ rest)) =
     (i ← or_fail (NotInList (title b)) (index_of (title b) month_name);
      Loaded (Z.of_nat i))) ∧
  (∀ s, separator_free s = true → file_month s = Failed IndexError) ∧
  (∀ s m, file_month s = Loaded m → 0 ≤ m ≤ 12).
Proof.
  split; [|split].
  - intros a b rest c Ha Hb Hc Hrest. unfold month_of_file.
    rewrite (re_split_first a _ c Ha Hc).
    destruct Hrest as [->|(c' & r & Hc' & ->)].
    + rewrite append_empty_r, (re_split_separator_free b Hb). reflexivity.
    + rewrite (re_split_first b _ c' Hb Hc'). reflexivity.
  - intros s Hs. unfold month_of_file.
    by rewrite (re_split_separator_free s Hs).
  - intros s m. unfold month_of_file.
    remember month_name as names eqn:Hnames.
    destruct (re_split s !! 1%nat) as [piece|]; simpl; [|done].
    destruct (index_of (title piece) names) as [i|] eqn:Hi; simpl; [|done].
    intros [= <-]. apply index_of_lt in Hi. subst names. simpl in Hi. lia.
Qed.

Lemma month_skip_iff (y m : Z) :
  year start_date ≤ y → y ≤ year end_date →
  ((y =? year start_date) && (m <? month start_date)) ||
  ((y =? year end_date) && (m >? month end_date)) = false ↔
  in_range y m.
Proof.
  intros Hs He. unfold in_month_range.
  rewrite orb_false_iff, !andb_false_iff, Z.gtb_ltb, !Z.ltb_ge, !Z.eqb_neq.
  lia.
Qed.

Lemma in_month_range_year (y m : Z) :
  in_range y m → year start_date ≤ y ∧ y ≤ year end_date.
Proof. unfold in_month_range. lia. Qed.

Lemma load_file_closed (semantic_directory year_folder : string) (y m : Z)
    (doc : SemanticHistory) (f : string)
    (semantic_histories : list SemanticHistory) :
  py_int year_folder = Some y →
  year start_date ≤ y → y ≤ year end_date →
  file_month f = Loaded m →
  (in_range y m →
   read_json (semantic_directory +:+ year_folder +:+ "/" +:+ f) = Some doc) →
  load_one semantic_directory year_folder semantic_histories f =
  Loaded (if decide (in_range y m) then semantic_histories ++ [doc]
          else semantic_histories).
Proof.
  intros Hy Hs He Hm Hread. unfold load_file. rewrite Hm, Hy. simpl.
  destruct (_ || _) eqn:Hskip.
  - rewrite decide_False; [done|].
    intros Hin. apply (month_skip_iff y _ Hs He) in Hin. congruence.
  - apply (month_skip_iff y _ Hs He) in Hskip.
    rewrite decide_True by done. cbv zeta. by rewrite (Hread Hskip).
Qed.

Lemma load_files_closed (semantic_directory year_folder : string) (y : Z)
    (month_in : string → Z) (document_in : string → SemanticHistory)
    (files : list string) (semantic_histories : list SemanticHistory) :
  py_int year_folder = Some y →
  year start_date ≤ y → y ≤ year end_date →
  (∀ f, f ∈ files →
     file_month f = Loaded (month_in f) ∧
     (in_range y (month_in f) →
      read_json (semantic_directory +:+ year_folder +:+ "/" +:+ f)
        = Some (document_in f))) →
  for_each_loading (load_one semantic_directory year_folder) files
    semantic_histories =
  Loaded (semantic_histories ++
          (document_in <$> filter (λ f, in_range y (month_in f)) files)).
Proof.
  intros Hy Hs He. revert semantic_histories.
  induction files as [|f files IH]; intros hs Hfiles.
  - simpl. by rewrite app_nil_r.
  - destruct (Hfiles f) as [Hm Hread]; [by left|].
    cbn [for_each_loading].
    rewrite (load_file_closed _ _ y _ (document_in f) f hs Hy Hs He Hm Hread).
    rewrite bind_Loaded, filter_cons.
    rewrite IH by (intros f' Hf'; apply Hfiles; by right).
    case_decide; [|done]. by rewrite fmap_cons, <- app_assoc.
Qed.

(** X17: from a year folder the loader takes exactly the files whose
    month, with the year of the folder, lies between the month of the
    start date and the month of the end date, in the order of the
    listing; the folder of a year outside the range is not listed and
    the files of the other months are not read. *)
Theorem load_year_takes_months_in_range
    (semantic_directory year_folder : string) (y : Z)
    (month_in : string → Z) (document_in : string → SemanticHistory)
    (files : list string) (semantic_histories : list SemanticHistory) :
  re_search_year year_folder = true →
  py_int year_folder = Some y →
  (year start_date ≤ y ∧ y ≤ year end_date →
   listdir (semantic_directory +:+ year_folder) = Some files ∧
   ∀ f, f ∈ files →
     file_month f = Loaded (month_in f) ∧
     (in_range y (month_in f) →
      read_json (semantic_directory +:+ year_folder +:+ "/" +:+ f)
        = Some (document_in f))) →
  load_folder semantic_directory semantic_histories year_folder =
  Loaded (semantic_histories ++
          (document_in <$> filter (λ f, in_range y (month_in f)) files)).
Proof.
  intros Hre Hy Hfs. unfold load_year. rewrite Hre, Hy. simpl.
  destruct (_ || _) eqn:Hgate.
  - replace (filter _ files) with (@nil string).
    { by rewrite app_nil_r. }
    symmetry. apply filter_none.
    intros f _ Hin. apply in_month_range_year in Hin.
    apply orb_true_iff in Hgate.
    rewrite Z.gtb_ltb, !Z.ltb_lt in Hgate. lia.
  - apply orb_false_iff in Hgate. rewrite Z.gtb_ltb, !Z.ltb_ge in Hgate.
    destruct Hgate as [Hs He]. destruct Hfs as [Hls Hfiles]; [done|].
    rewrite Hls. simpl. by apply (load_files_closed _ _ y).
Qed.

End LoaderFacts.

(** ** The order of the locations, and the whole run in closed form *)

Lemma mapM_result_total {A B} (f : A → result B) (l : list A) :
  Forall (λ x, ∃ y, f x = Ok y) l → ∃ k, mapM f l = Ok k.
Proof.
  induction 1 as [|x l [y Hx] _ [k IH]]; simpl; [by eexists|].
  rewrite Hx, IH. by eexists.
Qed.

(** The timestamps paired with their locations, read off the locations
    alone. *)
Lemma zip_mapM_result {A B} (f : A → result B) (l : list A) (k : list B) :
  mapM f l = Ok k →
  zip k l =
  omap (λ x, match f x with Ok y => Some (y, x) | Raise _ => None end) l.
Proof.
  revert k. induction l as [|x l IH]; intros k; simpl.
  - by intros [= <-].
  - destruct (f x) as [y|e] eqn:Hx; simpl; [|done].
    destruct (mapM f l) as [k'|e]; simpl; [|done].
    intros [= <-]. simpl. by rewrite (IH k' eq_refl).
Qed.

Lemma Forall2_fmap_imap {A B C} (R : B → C → Prop) (g : A → B)
    (f : nat → A → C) (l : list A) :
  (∀ i x, x ∈ l → R (g x) (f i x)) → Forall2 R (g <$> l) (imap f l).
Proof.
  revert f. induction l as [|x l IH]; intros f Hf; csimpl; [constructor|].
  constructor; [apply Hf; by left|].
  apply IH. intros i y Hy. apply Hf. by right.
Qed.

Section LocationOrder.
Variable fromisoformat : string → option pydatetime.
Variable flags : FLAGS.t.
Variables start_date end_date : datetime.
Variable new_timezone : tzinfo.

Local Abbreviation pass :=
  (correlate fromisoformat flags start_date end_date new_timezone).
Local Abbreviation decode := (decode_timestamp fromisoformat).
Local Abbreviation matched :=
  (with_matches flags start_date end_date new_timezone).
Local Abbreviation fix_of :=
  (ping_waypoint flags start_date end_date new_timezone).

(** X18: the order of the locations decides only the order in which a
    journey receives its waypoints: a pass over the same locations in
    another order returns as well, and gives every journey the same
    bounds and the same waypoints, rearranged. *)
Theorem correlate_location_order
    (locs locs' : list LocationPing) (journeys a : list Journey) :
  locs ≡ₚ locs' →
  pass locs journeys = Ok a →
  ∃ b, pass locs' journeys = Ok b ∧
    Forall2 (λ j1 j2, startTime j1 = startTime j2 ∧
                      endTime j1 = endTime j2 ∧
                      waypoints j1 ≡ₚ waypoints j2) a b.
Proof.
  intros Hperm. rewrite !correlate_closed.
  destruct (mapM decode locs) as [times|e] eqn:Hd; simpl; [|done].
  intros [= <-].
  destruct (mapM_result_total decode locs') as [times' Hd'].
  { rewrite <- Hperm. apply mapM_Ok_Forall2 in Hd.
    clear -Hd. induction Hd; constructor; eauto. }
  rewrite Hd'. simpl. eexists. split; [done|].
  apply Forall2_fmap, Forall_Forall2_diag, Forall_forall. intros j _.
  repeat split. simpl. apply Permutation_app_head.
  rewrite (zip_mapM_result _ _ _ Hd), (zip_mapM_result _ _ _ Hd').
  by rewrite Hperm.
Qed.

End LocationOrder.

Section MainClosedForm.
Variable fromisoformat : string → option pydatetime.
Variable strptime_date : string → option Z.
Variable pytz_timezone : string → tzinfo.
Variable isoformat : aware_datetime → string.

Local Abbreviation program :=
  (main fromisoformat strptime_date pytz_timezone isoformat).

(** X19: in the output of a run that returns, the waypoints of every
    journey are exactly the waypoints of the locations that pass the
    filters and fall into the window of the journey, sorted by time
    (locations with the same instant in the order of the input), and
    the coordinates of its feature are their [lon, lat] pairs. *)
Theorem main_waypoints_closed_form (flags : FLAGS.t) (utcnow : datetime)
    (location_history : LocationHistory)
    (semantic_histories : list SemanticHistory)
    (journeys : list Journey) (features : list Feature) :
  program flags utcnow location_history semantic_histories
    = Ok (journeys, features) →
  ∃ start_date end_date locs times,
    parse_with strptime_date (FLAGS.start_date flags) = Ok start_date ∧
    match FLAGS.end_date flags with
    | None => utcnow = end_date
    | Some s => parse_with strptime_date s = Ok end_date
    end ∧
    locations location_history = Some locs ∧
    mapM (decode_timestamp fromisoformat) locs = Ok times ∧
    Forall2 (λ j f,
        waypoints j =
          sort_waypoints
            (omap (ping_waypoint flags start_date end_date
                     (pytz_timezone "US/Pacific") j) (zip times locs)) ∧
        coordinates (geometry f) = (λ w, [lon w; lat w]) <$> waypoints j)
      journeys features.
Proof.
  intros Hrun.
  apply main_Ok_stages in Hrun
    as (sd & ed & extracted & locs & correlated
        & Hsd & Hed & Hx & Hl & Hc & Hout).
  rewrite correlate_closed in Hc.
  destruct (mapM _ locs) as [times|e] eqn:Hd; simpl in Hc; [|done].
  injection Hc as <-.
  exists sd, ed, locs, times. do 4 (split; [done|]).
  apply extract_journeys_fresh in Hx.
  apply (f_equal fst) in Hout as Hj. apply (f_equal snd) in Hout as Hf.
  simpl in Hj, Hf. subst journeys features.
  rewrite assemble_journeys, assemble_features.
  apply Forall2_fmap_imap. intros i j0 Hj0.
  unfold sort_journeys in Hj0. rewrite sort_by_Permutation in Hj0.
  apply list_elem_of_fmap in Hj0 as (j00 & -> & Hj00).
  rewrite Forall_forall in Hx. destruct (Hx j00 Hj00) as (Hw & _).
  simpl. rewrite Hw. simpl. split; [|done]. by f_equal.
Qed.

End MainClosedForm.

(** ** The further properties at concrete inputs *)

Module MoreWitnesses.
Import Calendar Examples MoreExamples.

(** The two overlapping rides keep their waypoints in bounds. *)
Lemma correlate_keeps_waypoints_in_bounds_witness :
  Forall (well_matched sd ed) matched_rides.
Proof.
  apply (correlate_keeps_waypoints_in_bounds fromisoformat flags sd ed tz
           some_pings [ride; second_ride] matched_rides).
  - repeat constructor.
  - reflexivity.
Defined.

Lemma extract_journeys_fresh_and_in_range_witness :
  Forall (freshly_extracted sd ed) [ride].
Proof.
  apply (extract_journeys_fresh_and_in_range fromisoformat sd ed
           ride_history [ride]).
  reflexivity.
Defined.

(** Pacific against Berlin: same journeys, same geometry. *)
Lemma display_zone_only_rendering_witness :
  ∃ b,
    correlate fromisoformat flags sd ed europe_berlin_winter some_pings
      [ride; second_ride] = Ok b ∧
    Forall2 same_journey matched_rides b ∧
    (λ f, (feature_id f, geometry f))
      <$> (assemble isoformat us_pacific matched_rides).2 =
    (λ f, (feature_id f, geometry f))
      <$> (assemble isoformat europe_berlin_winter b).2.
Proof.
  destruct (display_zone_only_rendering fromisoformat flags sd ed
              us_pacific europe_berlin_winter isoformat isoformat
              some_pings [ride; second_ride] [ride; second_ride])
    as [_ Hok].
  { repeat constructor. }
  destruct (Hok matched_rides eq_refl) as (b & Hb & Hsame & _ & Hgeo).
  by exists b.
Defined.

Lemma main_features_follow_extraction_witness :
  ∃ start_date end_date extracted,
    parse_with strptime_date "2022-01-01" = Ok start_date ∧
    parse_with strptime_date "2022-12-31" = Ok end_date ∧
    extract_journeys fromisoformat start_date end_date ride_history
      = Ok extracted ∧
    length ride_output.2 = length extracted ∧
    length ride_output.1 = length extracted ∧
    bounds <$> ride_output.1 ≡ₚ bounds <$> extracted.
Proof.
  apply (main_features_follow_extraction fromisoformat strptime_date
           pytz_timezone isoformat flags 0 ride_pings ride_history
           ride_output.1 ride_output.2).
  reflexivity.
Defined.

Lemma main_waypoints_within_bounds_witness :
  ∃ start_date end_date,
    parse_with strptime_date "2022-01-01" = Ok start_date ∧
    parse_with strptime_date "2022-12-31" = Ok end_date ∧
    Forall (λ j, start_date ≤ startTime j ∧ endTime j ≤ end_date ∧
                 well_matched start_date end_date j) ride_output.1.
Proof.
  apply (main_waypoints_within_bounds fromisoformat strptime_date
           pytz_timezone isoformat flags 0 ride_pings ride_history
           ride_output.1 ride_output.2).
  reflexivity.
Defined.

Lemma format_input_directory_keeps_ending_witness :
  format_input_directory "takeout/" = "takeout//" ∧
  format_input_directory "takeout" = "takeout".
Proof.
  destruct (format_input_directory_keeps_ending "takeout/") as (_ & Hs & _).
  destruct (format_input_directory_keeps_ending "takeout") as (_ & _ & Hn).
  split; [by apply Hs | by apply Hn].
Defined.

Lemma month_of_file_second_piece_witness :
  month_of_file Files.title "2022_JANUARY.json" =
    (i ← or_fail (NotInList (Files.title "JANUARY"))
           (index_of (Files.title "JANUARY") month_name);
     Loaded (Z.of_nat i)) ∧
  month_of_file Files.title "readme" = Failed IndexError.
Proof.
  destruct (month_of_file_second_piece Files.title) as (Hname & Hnone & _).
  split.
  - apply (Hname "2022" "JANUARY" ".json" "_"%char); try reflexivity.
    right. by exists "."%char, "json".
  - by apply Hnone.
Defined.

(** From the folder 2022, with the range February to August 2022, the
    files of March and June are taken. *)
Lemma load_year_takes_months_in_range_witness :
  load_year Files.listdir Files.read_json Files.py_int Files.title
    Files.year Files.month Files.from_ Files.until
    "takeout//Semantic Location History/" [] "2022" =
  Loaded [Files.march; Files.june].
Proof.
  apply (load_year_takes_months_in_range Files.listdir Files.read_json
           Files.py_int Files.title Files.year Files.month
           Files.from_ Files.until
           "takeout//Semantic Location History/" "2022" 2022
           Files.month_in Files.document_in
           ["2022_JANUARY.json"; "2022_MARCH.json"; "2022_JUNE.json";
            "2022_SEPTEMBER.json"] []).
  - reflexivity.
  - reflexivity.
  - intros _. split; [reflexivity|]. intros f Hf.
    change (Files.year Files.from_) with 2022.
    change (Files.month Files.from_) with 2.
    change (Files.year Files.until) with 2022.
    change (Files.month Files.until) with 8.
    repeat (apply elem_of_cons in Hf as [->|Hf]);
      [| | | |by apply elem_of_nil in Hf].
    + split; [reflexivity|].
      change (Files.month_in "2022_JANUARY.json") with 1.
      unfold in_month_range. lia.
    + split; reflexivity.
    + split; reflexivity.
    + split; [reflexivity|].
      change (Files.month_in "2022_SEPTEMBER.json") with 9.
      unfold in_month_range. lia.
Defined.

(** The pings in reverse order give the two rides the same waypoints. *)
Lemma correlate_location_order_witness :
  ∃ b,
    correlate fromisoformat flags sd ed tz (reverse some_pings)
      [ride; second_ride] = Ok b ∧
    Forall2 (λ j1 j2, startTime j1 = startTime j2 ∧
                      endTime j1 = endTime j2 ∧
                      waypoints j1 ≡ₚ waypoints j2) matched_rides b.
Proof.
  apply (correlate_location_order fromisoformat flags sd ed tz
           some_pings (reverse some_pings) [ride; second_ride]
           matched_rides).
  - symmetry. apply reverse_Permutation.
  - reflexivity.
Defined.

Lemma main_waypoints_closed_form_witness :
  ∃ start_date end_date locs times,
    parse_with strptime_date "2022-01-01" = Ok start_date ∧
    parse_with strptime_date "2022-12-31" = Ok end_date ∧
    locations ride_pings = Some locs ∧
    mapM (decode_timestamp fromisoformat) locs = Ok times ∧
    Forall2 (λ j f,
        waypoints j =
          sort_waypoints
            (omap (ping_waypoint flags start_date end_date
                     (pytz_timezone "US/Pacific") j) (zip times locs)) ∧
        coordinates (geometry f) = (λ w, [lon w; lat w]) <$> waypoints j)
      ride_output.1 ride_output.2.
Proof.
  apply (main_waypoints_closed_form fromisoformat strptime_date
           pytz_timezone isoformat flags 0 ride_pings ride_history
           ride_output.1 ride_output.2).
  reflexivity.
Defined.

End MoreWitnesses.

(** ** Aware timestamps on the example data *)

Module MoreChecks.
Import Calendar Examples MoreExamples.

(** A timestamp with a UTC offset parses to an aware datetime, and the
    comparison with the naive dates raises TypeError: in the correlator
    before any other filter, in the extractor for the start always and
    for the end only when the start is not before the start date. *)
Example aware_timestamps_raise_TypeError :
  fromisoformat "2022-06-01T10:25:00+00:00" =
    Some (Aware {| wall := at_ "2022-06-01T10:25:00"; utcoffset := 0 |}) ∧
  step [ride] ping_with_offset = Raise TypeError ∧
  extract_event fromisoformat sd ed [] ride_with_offset_start
    = Raise TypeError ∧
  extract_event fromisoformat sd ed [] ride_with_offset_end
    = Raise TypeError ∧
  extract_event fromisoformat sd ed [] old_ride_with_offset_end = Ok [].
Proof. by vm_compute. Qed.

End MoreChecks.
